(** * Kibana: the core [Server] lifecycle and the Lens XY expression functions

    A shallow embedding of
    - the class [Server] of the core server ([setup], [start], [stop],
      [registerDefaultRoute], [registerCoreContext]), and
    - [x-pack/legacy/plugins/lens/public/xy_visualization_plugin/types.ts]
      (the expression functions [legendConfig], [xConfig], [layerConfig]).

    The services the [Server] drives (config, http, elasticsearch, plugins,
    saved objects, ui settings, capabilities, legacy) live in other modules.
    A method call on one of them is an operation of a small free monad; a
    run interprets the operations with an arbitrary table of service
    behaviours and records, in order, which call was made and how it
    settled. *)

From stdpp Require Import base option list strings gmap fin_maps.

Local Open Scope string_scope.
Local Open Scope list_scope.

(** ** JavaScript values and plain objects *)

(** The values the expression functions handle: [undefined], [null],
    booleans, strings and arrays of strings (column ids). *)
Inductive Value : Type :=
| VUndefined
| VNull
| VBool (b : bool)
| VStr (s : string)
| VStrArray (items : list string).

(** A plain object used as a record: own enumerable properties by name. *)
Abbreviation Obj := (gmap string Value).

(** [{ ...base, ...src }]: every own property of [src] is copied onto
    [base], overwriting a property of the same name. *)
Definition obj_spread (base src : Obj) : Obj := src ∪ base.

(** ** types.ts: the XY chart expression functions *)

Module XY.

(** [fn: function fn(_context: unknown, args: LegendConfig) {
       return { type: 'lens_xy_legendConfig', ...args }; }] *)
Definition legendConfig_fn (_context : Value) (args : Obj) : Obj :=
  obj_spread {[ "type" := VStr "lens_xy_legendConfig" ]} args.

(** [fn: function fn(_context: unknown, args: XConfig) {
       return { type: 'lens_xy_xConfig', ...args }; }] *)
Definition xConfig_fn (_context : Value) (args : Obj) : Obj :=
  obj_spread {[ "type" := VStr "lens_xy_xConfig" ]} args.

(** [fn: function fn(_context: unknown, args: LayerArgs) {
       return { type: 'lens_xy_layer', ...args }; }] *)
Definition layerConfig_fn (_context : Value) (args : Obj) : Obj :=
  obj_spread {[ "type" := VStr "lens_xy_layer" ]} args.

(** The declared argument types. [position] is a [Position] of
    [@elastic/charts], a string; an optional member that is left out is
    [None]. *)
Record LegendConfig : Type := { isVisible : bool; position : string }.

Record AxisConfig : Type := { title : string; hide : option bool }.

(** [interface XConfig extends AxisConfig] *)
Record XConfig : Type := { x_axis : AxisConfig; accessor : string }.

Inductive SeriesType : Type := bar | line | area | bar_stacked | area_stacked.

Definition SeriesType_value (s : SeriesType) : string :=
  match s with
  | bar => "bar"
  | line => "line"
  | area => "area"
  | bar_stacked => "bar_stacked"
  | area_stacked => "area_stacked"
  end.

(** [type LayerConfig = AxisConfig & { ... }] *)
Record LayerConfig : Type := {
  layer_axis : AxisConfig;
  layerId : string;
  xAccessor : string;
  accessors : list string;
  seriesType : SeriesType;
  splitAccessor : string
}.

(** [type LayerArgs = LayerConfig & { columnToLabel?: string }] *)
Record LayerArgs : Type := {
  layer_config : LayerConfig;
  columnToLabel : option string
}.

(** The objects of these types. *)
Definition set_optional (k : string) (v : option Value) (o : Obj) : Obj :=
  match v with
  | Some x => <[ k := x ]> o
  | None => o
  end.

Definition LegendConfig_obj (l : LegendConfig) : Obj :=
  <[ "isVisible" := VBool (isVisible l) ]>
    {[ "position" := VStr (position l) ]}.

Definition AxisConfig_obj (a : AxisConfig) : Obj :=
  set_optional "hide" (VBool <$> hide a) {[ "title" := VStr (title a) ]}.

Definition XConfig_obj (x : XConfig) : Obj :=
  <[ "accessor" := VStr (accessor x) ]> (AxisConfig_obj (x_axis x)).

Definition LayerConfig_obj (c : LayerConfig) : Obj :=
  <[ "layerId" := VStr (layerId c) ]>
    (<[ "xAccessor" := VStr (xAccessor c) ]>
       (<[ "accessors" := VStrArray (accessors c) ]>
          (<[ "seriesType" := VStr (SeriesType_value (seriesType c)) ]>
             (<[ "splitAccessor" := VStr (splitAccessor c) ]>
                (AxisConfig_obj (layer_axis c)))))).

Definition LayerArgs_obj (a : LayerArgs) : Obj :=
  set_optional "columnToLabel" (VStr <$> columnToLabel a)
    (LayerConfig_obj (layer_config a)).

(** A sample legend configuration, [{ isVisible: true, position: 'right' }]. *)
Definition sample_legend : LegendConfig :=
  {| isVisible := true; position := "right" |}.

End XY.

(** ** JavaScript [Map]: keyed entries in insertion order *)

Section JSMap.
Context {K V : Type} `{EqDecision K}.

(** [Map.prototype.set] on the entry list: an existing key keeps its
    place and gets the new value, a new key goes to the end. *)
Fixpoint entries_set (k : K) (v : V) (es : list (K * V)) : list (K * V) :=
  match es with
  | [] => [(k, v)]
  | (k', v') :: rest =>
      if decide (k = k') then (k', v) :: rest
      else (k', v') :: entries_set k v rest
  end.

Fixpoint entries_get (k : K) (es : list (K * V)) : option V :=
  match es with
  | [] => None
  | (k', v') :: rest => if decide (k = k') then Some v' else entries_get k rest
  end.

(** What [new Map(iterable)] does with the pairs of [iterable]. *)
Definition entries_of_iterable (it : list (K * V)) : list (K * V) :=
  fold_left (fun es kv => entries_set kv.1 kv.2 es) it [].

Lemma entries_set_keys k v es :
  (entries_set k v es).*1 = if decide (k ∈ es.*1) then es.*1 else es.*1 ++ [k].
Proof.
  induction es as [|[k' v'] es IH]; csimpl.
  - destruct (decide (k ∈ [])) as [H|_]; [by apply elem_of_nil in H | done].
  - destruct (decide (k = k')) as [->|Hne]; csimpl.
    + rewrite decide_True; [done | by left].
    + rewrite IH. destruct (decide (k ∈ es.*1)) as [Hin|Hnin].
      * rewrite decide_True; [done | by right].
      * rewrite decide_False; [done |].
        intros [?|?]%elem_of_cons; contradiction.
Qed.

Lemma entries_set_NoDup k v es : NoDup es.*1 → NoDup (entries_set k v es).*1.
Proof.
  intros Hnd. rewrite entries_set_keys.
  destruct (decide (k ∈ es.*1)) as [Hin|Hin]; [done |].
  apply NoDup_app. split_and!; [done | | apply NoDup_singleton].
  intros x Hx ->%list_elem_of_singleton. contradiction.
Qed.

Lemma entries_fold_NoDup it es :
  NoDup es.*1 →
  NoDup (fold_left (fun es kv => entries_set kv.1 kv.2 es) it es).*1.
Proof.
  revert es. induction it as [|[k v] it IH]; intros es Hnd; csimpl; [done |].
  apply IH. by apply entries_set_NoDup.
Qed.

Lemma entries_of_iterable_NoDup it : NoDup (entries_of_iterable it).*1.
Proof. apply entries_fold_NoDup. constructor. Qed.

(** A [Map] object: its entries in insertion order, no key twice. *)
Record JSMap : Type := mkJSMap {
  entries : list (K * V);
  entries_NoDup : bool_decide (NoDup entries.*1)
}.

(** [new Map(iterable)] *)
Definition new_Map (it : list (K * V)) : JSMap :=
  {| entries := entries_of_iterable it;
     entries_NoDup := bool_decide_pack _ (entries_of_iterable_NoDup it) |}.

(** [[...m.keys()]] *)
Definition JSMap_keys (m : JSMap) : list K := (entries m).*1.

(** [m.get(k)] *)
Definition JSMap_get (k : K) (m : JSMap) : option V := entries_get k (entries m).

(** [m.size] *)
Definition JSMap_size (m : JSMap) : nat := length (entries m).

End JSMap.

Arguments JSMap K V {_}.

(** ** Promises *)

(** What is thrown: an [Error] with its name and message. *)
Record JSError : Type := mkError { err_name : string; err_message : string }.

(** How an awaited promise (or a plain call) settles: with a value, or by
    rejecting (throwing). *)
Inductive Outcome (A : Type) : Type :=
| Resolved (a : A)
| Rejected (e : JSError).

Arguments Resolved {A} a.
Arguments Rejected {A} e.

Definition outcome_bind {A B} (o : Outcome A) (k : A → Outcome B) : Outcome B :=
  match o with
  | Resolved a => k a
  | Rejected e => Rejected e
  end.

(** Modelled from the spec: the merged configuration that
    [ensureValidConfiguration] (of [./legacy], not among the sources)
    validates, as a list of sections; a section has a path and a value that
    passes or fails the schema registered for the path. *)
Record ConfigSection : Type := { section_path : string; section_valid : bool }.

Fixpoint first_invalid (config : list ConfigSection) : option ConfigSection :=
  match config with
  | [] => None
  | s :: rest => if section_valid s then first_invalid rest else Some s
  end.

Definition invalid_section_error (s : ConfigSection) : JSError :=
  {| err_name := "InvalidConfigurationError"; err_message := section_path s |}.

(** An rxjs [Observable]: the values a new subscriber receives, in order,
    until the stream completes (streams that fail or stay silent for ever
    are left out). *)
Definition Observable (A : Type) : Type := list A.

(** [obs.pipe(take(1)).toPromise()]: the first emitted value, [undefined]
    ([None]) when the stream completes without one. *)
Definition take1_toPromise {A} (obs : Observable A) : option A := head obs.

(** Reading a member of [undefined]. *)
Definition TypeError_undefined (member : string) : JSError :=
  {| err_name := "TypeError";
     err_message := "Cannot read property '" +:+ member +:+ "' of undefined" |}.

(** ** The services' types

    Everything the [Server] module imports and only passes along: identifiers,
    contracts, clients and the scoping methods of the contracts. *)
Class Platform : Type := {
  (** plugin identifiers; [legacyId] is [this.legacy.legacyId] and [coreId]
      the module constant [Symbol('core')] *)
  PluginOpaqueId : Type;
  PluginOpaqueId_eq_dec :: EqDecision PluginOpaqueId;
  coreId : PluginOpaqueId;
  legacyId : PluginOpaqueId;
  (** results of discovery and of the [setup] and [start] phases *)
  LegacyPlugins : Type;
  ContextSetup : Type;
  InternalHttpServiceSetup : Type;
  IRouter : Type;
  CapabilitiesSetup : Type;
  ElasticsearchServiceSetup : Type;
  UiSettingsServiceSetup : Type;
  SavedObjectsServiceSetup : Type;
  PluginsServiceSetup : Type;
  SavedObjectsServiceStart : Type;
  CapabilitiesStart : Type;
  PluginsServiceStart : Type;
  (** [pluginsSetup.contracts], [pluginsStart.contracts] and [mapToObject] *)
  PluginContracts : Type;
  PluginContractsObject : Type;
  setup_contracts : PluginsServiceSetup → PluginContracts;
  start_contracts : PluginsServiceStart → PluginContracts;
  mapToObject : PluginContracts → PluginContractsObject;
  (** requests and responses *)
  KibanaRequest : Type;
  PartialHandlerContext : Type;
  KibanaResponse : Type;
  (** clients and the members of the contracts the context provider uses *)
  ClusterClient : Type;
  ScopedClusterClient : Type;
  SavedObjectsClient : Type;
  UiSettingsClient : Type;
  adminClient_stream : ElasticsearchServiceSetup → Observable ClusterClient;
  dataClient_stream : ElasticsearchServiceSetup → Observable ClusterClient;
  asScoped : ClusterClient → KibanaRequest → Outcome ScopedClusterClient;
  getScopedClient : SavedObjectsServiceSetup → KibanaRequest → Outcome SavedObjectsClient;
  asScopedToClient : UiSettingsServiceSetup → SavedObjectsClient → Outcome UiSettingsClient
}.

Section Server.
Context `{P : Platform}.

(** *** Records built by [Server] *)

(** [InternalCoreSetup] *)
Record InternalCoreSetup : Type := {
  setup_capabilities : CapabilitiesSetup;
  setup_context : ContextSetup;
  setup_elasticsearch : ElasticsearchServiceSetup;
  setup_http : InternalHttpServiceSetup;
  setup_uiSettings : UiSettingsServiceSetup;
  setup_savedObjects : SavedObjectsServiceSetup
}.

(** [{ ...coreSetup, plugins: pluginsSetup }] *)
Record LegacyCoreSetup : Type := {
  legacy_setup_core : InternalCoreSetup;
  legacy_setup_plugins : PluginsServiceSetup
}.

(** [coreStart] *)
Record CoreStart : Type := {
  start_capabilities : CapabilitiesStart;
  start_savedObjects : SavedObjectsServiceStart;
  start_plugins : PluginsServiceStart
}.

(** [{ path: '/', validate: false }] *)
Record RouteConfig : Type := { path : string; validate : bool }.

(** [{ body: ... }] *)
Record HttpResponseOptions : Type := { body : Obj }.

(** The response factory [res] a route handler receives; the default
    route uses its [ok] method only. *)
Record ResponseFactory : Type := { ok : HttpResponseOptions → KibanaResponse }.

Definition RequestHandler : Type :=
  PartialHandlerContext → KibanaRequest → ResponseFactory → Outcome KibanaResponse.

(** [RequestHandlerContext['core']] *)
Record SavedObjectsGroup : Type := { savedObjects_client : SavedObjectsClient }.
Record ElasticsearchGroup : Type := {
  adminClient : ScopedClusterClient;
  dataClient : ScopedClusterClient
}.
Record UiSettingsGroup : Type := { uiSettings_client : UiSettingsClient }.
Record CoreRequestHandlerContext : Type := {
  savedObjects : SavedObjectsGroup;
  elasticsearch : ElasticsearchGroup;
  uiSettings : UiSettingsGroup
}.

Definition ContextProvider : Type :=
  PartialHandlerContext → KibanaRequest → Outcome CoreRequestHandlerContext.

(** *** Calls on the services

    One constructor per method [Server] calls; the arguments are the
    members of the object passed. *)
Inductive Op : Type :=
| plugins_discover
| legacy_discoverPlugins
| ensureValidConfiguration (legacyPlugins : LegacyPlugins)
| context_setup (pluginDependencies : JSMap PluginOpaqueId (list PluginOpaqueId))
| http_setup (context : ContextSetup)
| http_createRouter (httpSetup : InternalHttpServiceSetup) (prefix : string)
| router_get (router : IRouter) (route : RouteConfig) (handler : RequestHandler)
| capabilities_setup (http : InternalHttpServiceSetup)
| elasticsearch_setup (http : InternalHttpServiceSetup)
| uiSettings_setup (http : InternalHttpServiceSetup)
| savedObjects_setup (elasticsearch : ElasticsearchServiceSetup)
                     (legacyPlugins : LegacyPlugins)
| plugins_setup (coreSetup : InternalCoreSetup)
| legacy_setup (core : LegacyCoreSetup) (plugins : PluginContractsObject)
| http_registerRouteHandlerContext (httpSetup : InternalHttpServiceSetup)
    (pluginOpaqueId : PluginOpaqueId) (contextName : string)
    (provider : ContextProvider)
| savedObjects_start
| capabilities_start
| plugins_start (capabilities : CapabilitiesStart)
                (savedObjects : SavedObjectsServiceStart)
| legacy_start (core : CoreStart) (plugins : PluginContractsObject)
| http_start
| legacy_stop
| plugins_stop
| savedObjects_stop
| elasticsearch_stop
| http_stop.

(** What each call hands back to [Server] ([unit]: nothing is used). *)
Definition ret_type (o : Op) : Type :=
  match o with
  | plugins_discover => JSMap PluginOpaqueId (list PluginOpaqueId)
  | legacy_discoverPlugins => LegacyPlugins
  | context_setup _ => ContextSetup
  | http_setup _ => InternalHttpServiceSetup
  | http_createRouter _ _ => IRouter
  | capabilities_setup _ => CapabilitiesSetup
  | elasticsearch_setup _ => ElasticsearchServiceSetup
  | uiSettings_setup _ => UiSettingsServiceSetup
  | savedObjects_setup _ _ => SavedObjectsServiceSetup
  | plugins_setup _ => PluginsServiceSetup
  | savedObjects_start => SavedObjectsServiceStart
  | capabilities_start => CapabilitiesStart
  | plugins_start _ _ => PluginsServiceStart
  | _ => unit
  end.

(** *** Programs: the method bodies of [Server] *)

Inductive Prog (A : Type) : Type :=
| Return (a : A)
| Debug (msg : string) (k : Prog A)
| Call (o : Op) (k : ret_type o → Prog A).

Arguments Return {A} a.
Arguments Debug {A} msg k.
Arguments Call {A} o k.

Fixpoint bind {A B} (p : Prog A) (f : A → Prog B) : Prog B :=
  match p with
  | Return a => f a
  | Debug msg k => Debug msg (bind k f)
  | Call o k => Call o (fun x => bind (k x) f)
  end.

(** [await service.method(args)], or the plain call when the method is
    synchronous. *)
Definition call (o : Op) : Prog (ret_type o) := Call o Return.

(** [this.log.debug(msg)] *)
Definition log_debug (msg : string) : Prog unit := Debug msg (Return tt).

(** *** Runs *)

(** How a call settled. *)
Inductive Status : Type :=
| resolved
| rejected (e : JSError).

(** What a run leaves behind: log lines and service calls, in order. *)
Inductive Event : Type :=
| EvDebug (msg : string)
| EvCall (o : Op) (s : Status).

(** The services: how each call settles, given everything that has
    happened so far. *)
Definition Services : Type := ∀ o : Op, list Event → Outcome (ret_type o).

(** [exec svc p past]: the outcome of running [p] after the events [past],
    and the events the run adds. A rejected call ends the run: no method
    of [Server] has a [try]/[catch]. *)
Fixpoint exec {A} (svc : Services) (p : Prog A) (past : list Event)
  : Outcome A * list Event :=
  match p with
  | Return a => (Resolved a, [])
  | Debug msg k =>
      let '(r, t) := exec svc k (past ++ [EvDebug msg]) in
      (r, EvDebug msg :: t)
  | Call o k =>
      match svc o past with
      | Resolved x =>
          let '(r, t) := exec svc (k x) (past ++ [EvCall o resolved]) in
          (r, EvCall o resolved :: t)
      | Rejected e => (Rejected e, [EvCall o (rejected e)])
      end
  end.

Notation "'let*' x ':=' p 'in' k" := (bind p (fun x => k))
  (at level 10, x name, p at level 100, k at level 200, only parsing).
Notation "p ';;' k" := (bind p (fun _ => k))
  (at level 100, k at level 200, right associativity, only parsing).

(** *** class Server *)

(** The handler of the default route:
    [async (context, req, res) => res.ok({ body: { version: '0.0.1' } })] *)
Definition defaultRouteHandler : RequestHandler :=
  fun _context _req res =>
    Resolved (ok res {| body := {[ "version" := VStr "0.0.1" ]} |}).

(** [private registerDefaultRoute(httpSetup)] *)
Definition registerDefaultRoute (httpSetup : InternalHttpServiceSetup) : Prog unit :=
  let* router := call (http_createRouter httpSetup "/core") in
  call (router_get router {| path := "/"; validate := false |} defaultRouteHandler).

(** The provider [registerCoreContext] registers:
    [async (context, req) => { ... }]. The two streams are awaited first,
    then the saved-objects client is made, then the object literal is
    evaluated member by member. *)
Definition coreContextProvider (coreSetup : InternalCoreSetup) : ContextProvider :=
  fun _context req =>
    let adminClient :=
      take1_toPromise (adminClient_stream (setup_elasticsearch coreSetup)) in
    let dataClient :=
      take1_toPromise (dataClient_stream (setup_elasticsearch coreSetup)) in
    outcome_bind (getScopedClient (setup_savedObjects coreSetup) req)
      (fun savedObjectsClient =>
    outcome_bind
      match adminClient with
      | Some c => asScoped c req
      | None => Rejected (TypeError_undefined "asScoped")
      end (fun scopedAdmin =>
    outcome_bind
      match dataClient with
      | Some c => asScoped c req
      | None => Rejected (TypeError_undefined "asScoped")
      end (fun scopedData =>
    outcome_bind
      (asScopedToClient (setup_uiSettings coreSetup) savedObjectsClient)
      (fun uiSettingsClient =>
    Resolved
      {| savedObjects := {| savedObjects_client := savedObjectsClient |};
         elasticsearch := {| adminClient := scopedAdmin; dataClient := scopedData |};
         uiSettings := {| uiSettings_client := uiSettingsClient |} |})))).

(** [private registerCoreContext(coreSetup)] *)
Definition registerCoreContext (coreSetup : InternalCoreSetup) : Prog unit :=
  call (http_registerRouteHandlerContext (setup_http coreSetup) coreId "core"
          (coreContextProvider coreSetup)).

(** [new Map([...pluginDependencies, [this.legacy.legacyId,
    [...pluginDependencies.keys()]]])] *)
Definition withLegacyDependencies
    (pluginDependencies : JSMap PluginOpaqueId (list PluginOpaqueId))
  : JSMap PluginOpaqueId (list PluginOpaqueId) :=
  new_Map (entries pluginDependencies ++ [(legacyId, JSMap_keys pluginDependencies)]).

(** [public async setup()] *)
Definition Server_setup : Prog InternalCoreSetup :=
  log_debug "setting up server" ;;
  let* pluginDependencies := call plugins_discover in
  let* legacyPlugins := call legacy_discoverPlugins in
  call (ensureValidConfiguration legacyPlugins) ;;
  let* contextServiceSetup :=
    call (context_setup (withLegacyDependencies pluginDependencies)) in
  let* httpSetup := call (http_setup contextServiceSetup) in
  registerDefaultRoute httpSetup ;;
  let* capabilitiesSetup := call (capabilities_setup httpSetup) in
  let* elasticsearchServiceSetup := call (elasticsearch_setup httpSetup) in
  let* uiSettingsSetup := call (uiSettings_setup httpSetup) in
  let* savedObjectsSetup :=
    call (savedObjects_setup elasticsearchServiceSetup legacyPlugins) in
  let coreSetup :=
    {| setup_capabilities := capabilitiesSetup;
       setup_context := contextServiceSetup;
       setup_elasticsearch := elasticsearchServiceSetup;
       setup_http := httpSetup;
       setup_uiSettings := uiSettingsSetup;
       setup_savedObjects := savedObjectsSetup |} in
  let* pluginsSetup := call (plugins_setup coreSetup) in
  call (legacy_setup
          {| legacy_setup_core := coreSetup; legacy_setup_plugins := pluginsSetup |}
          (mapToObject (setup_contracts pluginsSetup))) ;;
  registerCoreContext coreSetup ;;
  Return coreSetup.

(** [public async start()] *)
Definition Server_start : Prog CoreStart :=
  log_debug "starting server" ;;
  let* savedObjectsStart := call savedObjects_start in
  let* capabilitiesStart := call capabilities_start in
  let* pluginsStart := call (plugins_start capabilitiesStart savedObjectsStart) in
  let coreStart :=
    {| start_capabilities := capabilitiesStart;
       start_savedObjects := savedObjectsStart;
       start_plugins := pluginsStart |} in
  call (legacy_start coreStart (mapToObject (start_contracts pluginsStart))) ;;
  call http_start ;;
  Return coreStart.

(** [public async stop()] *)
Definition Server_stop : Prog unit :=
  log_debug "stopping server" ;;
  call legacy_stop ;;
  call plugins_stop ;;
  call savedObjects_stop ;;
  call elasticsearch_stop ;;
  call http_stop ;;
  Return tt.

(** *** Reading a run *)

(** The calls made, in order. *)
Fixpoint calls (t : list Event) : list Op :=
  match t with
  | [] => []
  | EvDebug _ :: t' => calls t'
  | EvCall o _ :: t' => o :: calls t'
  end.

(** The method a call names, without its arguments. *)
Inductive Method : Type :=
| M_plugins_discover | M_legacy_discoverPlugins | M_ensureValidConfiguration
| M_context_setup | M_http_setup | M_http_createRouter | M_router_get
| M_capabilities_setup | M_elasticsearch_setup | M_uiSettings_setup
| M_savedObjects_setup | M_plugins_setup | M_legacy_setup
| M_http_registerRouteHandlerContext
| M_savedObjects_start | M_capabilities_start | M_plugins_start
| M_legacy_start | M_http_start
| M_legacy_stop | M_plugins_stop | M_savedObjects_stop
| M_elasticsearch_stop | M_http_stop.

Definition method (o : Op) : Method :=
  match o with
  | plugins_discover => M_plugins_discover
  | legacy_discoverPlugins => M_legacy_discoverPlugins
  | ensureValidConfiguration _ => M_ensureValidConfiguration
  | context_setup _ => M_context_setup
  | http_setup _ => M_http_setup
  | http_createRouter _ _ => M_http_createRouter
  | router_get _ _ _ => M_router_get
  | capabilities_setup _ => M_capabilities_setup
  | elasticsearch_setup _ => M_elasticsearch_setup
  | uiSettings_setup _ => M_uiSettings_setup
  | savedObjects_setup _ _ => M_savedObjects_setup
  | plugins_setup _ => M_plugins_setup
  | legacy_setup _ _ => M_legacy_setup
  | http_registerRouteHandlerContext _ _ _ _ => M_http_registerRouteHandlerContext
  | savedObjects_start => M_savedObjects_start
  | capabilities_start => M_capabilities_start
  | plugins_start _ _ => M_plugins_start
  | legacy_start _ _ => M_legacy_start
  | http_start => M_http_start
  | legacy_stop => M_legacy_stop
  | plugins_stop => M_plugins_stop
  | savedObjects_stop => M_savedObjects_stop
  | elasticsearch_stop => M_elasticsearch_stop
  | http_stop => M_http_stop
  end.

(** A service's [setup], [start] or [stop] method. *)
Definition is_setup (m : Method) : bool :=
  match m with
  | M_context_setup | M_http_setup | M_capabilities_setup
  | M_elasticsearch_setup | M_uiSettings_setup | M_savedObjects_setup
  | M_plugins_setup | M_legacy_setup => true
  | _ => false
  end.

Definition is_start (m : Method) : bool :=
  match m with
  | M_savedObjects_start | M_capabilities_start | M_plugins_start
  | M_legacy_start | M_http_start => true
  | _ => false
  end.

Definition is_stop (m : Method) : bool :=
  match m with
  | M_legacy_stop | M_plugins_stop | M_savedObjects_stop
  | M_elasticsearch_stop | M_http_stop => true
  | _ => false
  end.

(** The methods [setup], [start] and [stop] call, in program order. *)
Definition setup_sequence : list Method :=
  [ M_plugins_discover; M_legacy_discoverPlugins; M_ensureValidConfiguration;
    M_context_setup; M_http_setup; M_http_createRouter; M_router_get;
    M_capabilities_setup; M_elasticsearch_setup; M_uiSettings_setup;
    M_savedObjects_setup; M_plugins_setup; M_legacy_setup;
    M_http_registerRouteHandlerContext ].

Definition start_sequence : list Method :=
  [ M_savedObjects_start; M_capabilities_start; M_plugins_start;
    M_legacy_start; M_http_start ].

Definition stop_sequence : list Method :=
  [ M_legacy_stop; M_plugins_stop; M_savedObjects_stop;
    M_elasticsearch_stop; M_http_stop ].

#[export] Instance Method_eq_dec : EqDecision Method.
Proof. solve_decision. Defined.

(** Every call of the run resolved. *)
Definition all_resolved (t : list Event) : Prop :=
  ∀ o s, EvCall o s ∈ t → s = resolved.

End Server.

Arguments Return {P A} a.
Arguments Debug {P A} msg k.
Arguments Call {P A} o k.

Section Runs.
Context `{P : Platform}.

Definition outcome_of {A} (svc : Services) (p : Prog A) (past : list Event)
  : Outcome A := (exec svc p past).1.

Definition trace_of {A} (svc : Services) (p : Prog A) (past : list Event)
  : list Event := (exec svc p past).2.

(** Modelled from the spec: [ensureValidConfiguration] of [./legacy], which
    is not among the sources. The merged configuration is a list of
    sections, each of which passes or fails its schema; validation rejects
    as soon as one section is invalid and resolves otherwise. *)
Definition validate_configuration (config : list ConfigSection) : Outcome unit :=
  match first_invalid config with
  | Some s => Rejected (invalid_section_error s)
  | None => Resolved tt
  end.

(** The services validate the configuration [config]. *)
Definition validates (svc : Services) (config : list ConfigSection) : Prop :=
  ∀ legacyPlugins past,
    svc (ensureValidConfiguration legacyPlugins) past = validate_configuration config.

(** [start()] on a fresh instance, before anything was called on it, is
    refused. *)
Definition start_refused_before_setup (svc : Services) : Prop :=
  ∃ e, outcome_of svc Server_start [] = Rejected e.

(** The scoping methods of the contracts make a client per request:
    different requests (different saved-objects clients, for the ui
    settings) never get the same client. *)
Definition scoped_per_request : Prop :=
  (∀ c c' req req' s s',
      asScoped c req = Resolved s → asScoped c' req' = Resolved s' →
      req ≠ req' → s ≠ s')
  ∧ (∀ so req req' c c',
      getScopedClient so req = Resolved c → getScopedClient so req' = Resolved c' →
      req ≠ req' → c ≠ c')
  ∧ (∀ ui c c' u u',
      asScopedToClient ui c = Resolved u → asScopedToClient ui c' = Resolved u' →
      c ≠ c' → u ≠ u').

End Runs.

(** ** A small installation

    Two new-platform plugins, [security] depending on [data]; requests are
    numbered; a scoped client remembers the request it was made for. *)
Module Sample.

#[export] Instance platform : Platform := {|
  PluginOpaqueId := string;
  coreId := "core";
  legacyId := "legacy";
  LegacyPlugins := unit;
  ContextSetup := unit;
  InternalHttpServiceSetup := unit;
  IRouter := string;
  CapabilitiesSetup := unit;
  ElasticsearchServiceSetup := unit;
  UiSettingsServiceSetup := unit;
  SavedObjectsServiceSetup := unit;
  PluginsServiceSetup := unit;
  SavedObjectsServiceStart := unit;
  CapabilitiesStart := unit;
  PluginsServiceStart := unit;
  PluginContracts := unit;
  PluginContractsObject := unit;
  setup_contracts := fun _ => tt;
  start_contracts := fun _ => tt;
  mapToObject := fun _ => tt;
  KibanaRequest := nat;
  PartialHandlerContext := unit;
  KibanaResponse := nat * Obj;
  ClusterClient := string;
  ScopedClusterClient := string * nat;
  SavedObjectsClient := nat;
  UiSettingsClient := nat;
  adminClient_stream := fun _ => ["admin"; "admin-2"];
  dataClient_stream := fun _ => ["data"];
  asScoped := fun c req => Resolved (c, req);
  getScopedClient := fun _ req => Resolved req;
  asScopedToClient := fun _ so => Resolved so
|}.

(** What [plugins.discover()] finds. *)
Definition discovered : JSMap PluginOpaqueId (list PluginOpaqueId) :=
  new_Map [("data", []); ("security", ["data"])].

(** A configuration whose [server] section does not pass its schema. *)
Definition invalid_config : list ConfigSection :=
  [ {| section_path := "elasticsearch"; section_valid := true |};
    {| section_path := "server"; section_valid := false |};
    {| section_path := "logging"; section_valid := true |} ].

Definition StopError : JSError :=
  {| err_name := "Error"; err_message := "plugin failed to stop" |}.

(** Every call resolves, whatever happened before. *)
Definition services : Services := fun o _ =>
  match o return Outcome (ret_type o) with
  | plugins_discover => Resolved discovered
  | legacy_discoverPlugins => Resolved tt
  | ensureValidConfiguration _ => Resolved tt
  | context_setup _ => Resolved tt
  | http_setup _ => Resolved tt
  | http_createRouter _ prefix => Resolved prefix
  | router_get _ _ _ => Resolved tt
  | capabilities_setup _ => Resolved tt
  | elasticsearch_setup _ => Resolved tt
  | uiSettings_setup _ => Resolved tt
  | savedObjects_setup _ _ => Resolved tt
  | plugins_setup _ => Resolved tt
  | legacy_setup _ _ => Resolved tt
  | http_registerRouteHandlerContext _ _ _ _ => Resolved tt
  | savedObjects_start => Resolved tt
  | capabilities_start => Resolved tt
  | plugins_start _ _ => Resolved tt
  | legacy_start _ _ => Resolved tt
  | http_start => Resolved tt
  | legacy_stop => Resolved tt
  | plugins_stop => Resolved tt
  | savedObjects_stop => Resolved tt
  | elasticsearch_stop => Resolved tt
  | http_stop => Resolved tt
  end.

(** The same installation with a configuration that does not validate. *)
Definition services_invalid_config : Services := fun o past =>
  match o return Outcome (ret_type o) → Outcome (ret_type o) with
  | ensureValidConfiguration _ => fun _ => validate_configuration invalid_config
  | _ => fun r => r
  end (services o past).

(** The same installation with a plugin that fails to stop. *)
Definition services_failing_stop : Services := fun o past =>
  match o return Outcome (ret_type o) → Outcome (ret_type o) with
  | plugins_stop => fun _ => Rejected StopError
  | _ => fun r => r
  end (services o past).

(** The same installation with a saved-objects service that refuses to
    start before it has been set up. *)
Definition NotSetUpError : JSError :=
  {| err_name := "Error"; err_message := "#setup() needs to be run first" |}.

Definition services_start_needs_setup : Services := fun o past =>
  match o return Outcome (ret_type o) → Outcome (ret_type o) with
  | savedObjects_start => fun r =>
      if bool_decide (M_savedObjects_setup ∈ method <$> calls past)
      then r else Rejected NotSetUpError
  | _ => fun r => r
  end (services o past).

(** The response factory: [ok] answers 200 with the body given. *)
Definition responseFactory : ResponseFactory :=
  {| ok := fun opts => (200, body opts) |}.

(** What [setup()] and [start()] return here. *)
Definition coreSetup : InternalCoreSetup :=
  {| setup_capabilities := tt; setup_context := tt; setup_elasticsearch := tt;
     setup_http := tt; setup_uiSettings := tt; setup_savedObjects := tt |}.

Definition coreStart : CoreStart :=
  {| start_capabilities := tt; start_savedObjects := tt; start_plugins := tt |}.

(** The core context of request number [req]. *)
Definition coreContext (req : KibanaRequest) : CoreRequestHandlerContext :=
  {| savedObjects := {| savedObjects_client := req |};
     elasticsearch :=
       {| adminClient := ("admin", req); dataClient := ("data", req) |};
     uiSettings := {| uiSettings_client := req |} |}.

Definition versionResponse : KibanaResponse :=
  (200, {[ "version" := VStr "0.0.1" ]}).

End Sample.

(** ** [Server.setupConfigSchemas] *)

Section ConfigSchemas.
Context {ConfigPath Schema : Type}.

(** The [config] a service module exports: [{ path, schema }]. *)
Record ServiceConfig : Type := { config_path : ConfigPath; config_schema : Schema }.

(** The eight [config] objects the [Server] module imports. *)
Record CoreConfigs : Type := {
  elasticsearchConfig : ServiceConfig;
  loggingConfig : ServiceConfig;
  httpConfig : ServiceConfig;
  pluginsConfig : ServiceConfig;
  devConfig : ServiceConfig;
  kibanaConfig : ServiceConfig;
  savedObjectsConfig : ServiceConfig;
  uiSettingsConfig : ServiceConfig
}.

(** [const schemas: Array<[ConfigPath, Type<unknown>]> = [ ... ]] *)
Definition schemas (c : CoreConfigs) : list (ConfigPath * Schema) :=
  [ (config_path (elasticsearchConfig c), config_schema (elasticsearchConfig c));
    (config_path (loggingConfig c), config_schema (loggingConfig c));
    (config_path (httpConfig c), config_schema (httpConfig c));
    (config_path (pluginsConfig c), config_schema (pluginsConfig c));
    (config_path (devConfig c), config_schema (devConfig c));
    (config_path (kibanaConfig c), config_schema (kibanaConfig c));
    (config_path (savedObjectsConfig c), config_schema (savedObjectsConfig c));
    (config_path (uiSettingsConfig c), config_schema (uiSettingsConfig c)) ].

(** A call [configService.setSchema(path, schema)] and how it settled. *)
Definition SchemaEvent : Type := (ConfigPath * Schema) * Status.

(** [configService.setSchema]: how the call settles, given the calls made
    so far. *)
Definition SetSchema : Type :=
  ConfigPath → Schema → list SchemaEvent → Outcome unit.

(** [for (const [path, schema] of schemas) {
       await this.configService.setSchema(path, schema); }] *)
Fixpoint for_of_setSchema (setSchema : SetSchema)
    (pairs : list (ConfigPath * Schema)) (past : list SchemaEvent)
  : Outcome unit * list SchemaEvent :=
  match pairs with
  | [] => (Resolved tt, [])
  | (path, schema) :: rest =>
      match setSchema path schema past with
      | Resolved _ =>
          let '(r, t) :=
            for_of_setSchema setSchema rest (past ++ [((path, schema), resolved)]) in
          (r, ((path, schema), resolved) :: t)
      | Rejected e => (Rejected e, [((path, schema), rejected e)])
      end
  end.

(** [public async setupConfigSchemas()] *)
Definition Server_setupConfigSchemas (c : CoreConfigs) (setSchema : SetSchema)
    (past : list SchemaEvent) : Outcome unit * list SchemaEvent :=
  for_of_setSchema setSchema (schemas c) past.

End ConfigSchemas.

Arguments ServiceConfig : clear implicits.
Arguments CoreConfigs : clear implicits.
Arguments SchemaEvent : clear implicits.
Arguments SetSchema : clear implicits.

(** ** Callers of the lifecycle methods *)

Section Lifecycles.
Context `{P : Platform}.

(** [await server.setup(); await server.start(); await server.stop();] *)
Definition setup_start_stop : Prog unit :=
  bind Server_setup (fun _ => bind Server_start (fun _ => Server_stop)).

(** [await server.stop(); await server.stop();] *)
Definition stop_twice : Prog unit :=
  bind Server_stop (fun _ => Server_stop).

End Lifecycles.

(** ** most_recent_error.tsx *)

Module Uptime.

(** The values of the url parameters: numbers (times in milliseconds,
    intervals) and strings. *)
Inductive ParamValue : Type :=
| PNum (n : Z)
| PStr (s : string).

Abbreviation UrlParams := (gmap string ParamValue).

(** [const { absoluteDateRangeStart, absoluteDateRangeEnd, ...params } =
       getUrlParams();
     params.selectedPingStatus = 'down';] *)
Definition linkParams (urlParams : UrlParams) : UrlParams :=
  let params :=
    delete "absoluteDateRangeEnd" (delete "absoluteDateRangeStart" urlParams) in
  <[ "selectedPingStatus" := PStr "down" ]> params.



Section Component.
(** [getUrlParams] of the [useUrlParams] hook, [stringifyUrlParams] and
    [i18n.translate(id, { defaultMessage, description })]. *)
Variable getUrlParams : unit → UrlParams.
Variable stringifyUrlParams : UrlParams → string.
Variable translate : string → string → string → string.


End Component.

End Uptime.

(** ** types.ts: the declarations of the expression functions *)

Module XYDecl.

(** [Position] of [@elastic/charts]. *)
Inductive Position : Type := Top | Right | Bottom | Left.

Inductive OptionValue : Type :=
| OptStr (s : string)
| OptPosition (p : Position).

(** [ArgumentType]: the members used here; a member left out is [None]. *)
Record ArgumentType : Type := {
  types : list string;
  help : string;
  options : option (list OptionValue);
  default : option Value;
  multi : option bool
}.

(** [ExpressionFunction] *)
Record ExpressionFunction : Type := {
  name : string;
  aliases : list string;
  type : string;
  fn_help : string;
  context_types : list string;
  args : gmap string ArgumentType;
  fn : Value → Obj → Obj
}.

(** [const axisConfig = { title: {...}, hide: {...} }] *)
Definition axisConfig : gmap string ArgumentType :=
  <[ "title" := {| types := ["string"]; help := "The axis title";
                   options := None; default := None; multi := None |} ]>
  (<[ "hide" := {| types := ["boolean"]; help := "Show / hide axis";
                   options := None; default := Some (VBool false);
                   multi := None |} ]> ∅).

(** [export const legendConfig = { ... }] *)
Definition legendConfig : ExpressionFunction :=
  {| name := "lens_xy_legendConfig";
     aliases := [];
     type := "lens_xy_legendConfig";
     fn_help := "Configure the xy chart's legend";
     context_types := ["null"];
     args :=
       <[ "isVisible" :=
            {| types := ["boolean"];
               help := "Specifies whether or not the legend is visible.";
               options := None; default := None; multi := None |} ]>
       (<[ "position" :=
            {| types := ["string"];
               help := "Specifies the legend position.";
               options := Some [OptPosition Top; OptPosition Right;
                                OptPosition Bottom; OptPosition Left];
               default := None; multi := None |} ]> ∅);
     fn := XY.legendConfig_fn |}.

(** [export const xConfig = { ... }]; [args] is
    [{ ...axisConfig, accessor: {...} }]. *)
Definition xConfig : ExpressionFunction :=
  {| name := "lens_xy_xConfig";
     aliases := [];
     type := "lens_xy_xConfig";
     fn_help := "Configure the xy chart's x axis";
     context_types := ["null"];
     args :=
       <[ "accessor" :=
            {| types := ["string"];
               help := "The column to display on the x axis.";
               options := None; default := None; multi := None |} ]>
       axisConfig;
     fn := XY.xConfig_fn |}.

(** [export const layerConfig = { ... }]; [args] is
    [{ ...axisConfig, layerId: {...}, ..., columnToLabel: {...} }]. *)
Definition layerConfig : ExpressionFunction :=
  {| name := "lens_xy_layer";
     aliases := [];
     type := "lens_xy_layer";
     fn_help := "Configure a layer in the xy chart";
     context_types := ["null"];
     args :=
       <[ "columnToLabel" :=
            {| types := ["string"];
               help := "JSON key-value pairs of column ID to label";
               options := None; default := None; multi := None |} ]>
       (<[ "accessors" :=
            {| types := ["string"];
               help := "The columns to display on the y axis.";
               options := None; default := None; multi := Some true |} ]>
       (<[ "splitAccessor" :=
            {| types := ["string"]; help := "The column to split by";
               options := None; default := None; multi := Some false |} ]>
       (<[ "seriesType" :=
            {| types := ["string"]; help := "The type of chart to display.";
               options := Some [OptStr "bar"; OptStr "line"; OptStr "area";
                                OptStr "bar_stacked"; OptStr "area_stacked"];
               default := None; multi := None |} ]>
       (<[ "xAccessor" :=
            {| types := ["string"]; help := ""; options := None;
               default := None; multi := None |} ]>
       (<[ "layerId" :=
            {| types := ["string"]; help := ""; options := None;
               default := None; multi := None |} ]>
        axisConfig)))));
     fn := XY.layerConfig_fn |}.

(** The three functions of the module. *)
Definition functions : list ExpressionFunction := [legendConfig; xConfig; layerConfig].

(** The options declared for [name] in [f.args], [[]] when there are none. *)
Definition declared_options (f : ExpressionFunction) (name : string) : list OptionValue :=
  match args f !! name with
  | Some a => match options a with Some os => os | None => [] end
  | None => []
  end.

End XYDecl.

(** ** Installations with an outage *)

Module Outage.

(** The sample platform with an admin client stream that completes without
    a value. *)
Definition platform_no_admin : Platform := {|
  PluginOpaqueId := string;
  coreId := "core";
  legacyId := "legacy";
  LegacyPlugins := unit;
  ContextSetup := unit;
  InternalHttpServiceSetup := unit;
  IRouter := string;
  CapabilitiesSetup := unit;
  ElasticsearchServiceSetup := unit;
  UiSettingsServiceSetup := unit;
  SavedObjectsServiceSetup := unit;
  PluginsServiceSetup := unit;
  SavedObjectsServiceStart := unit;
  CapabilitiesStart := unit;
  PluginsServiceStart := unit;
  PluginContracts := unit;
  PluginContractsObject := unit;
  setup_contracts := fun _ => tt;
  start_contracts := fun _ => tt;
  mapToObject := fun _ => tt;
  KibanaRequest := nat;
  PartialHandlerContext := unit;
  KibanaResponse := nat * Obj;
  ClusterClient := string;
  ScopedClusterClient := string * nat;
  SavedObjectsClient := nat;
  UiSettingsClient := nat;
  adminClient_stream := fun _ => [];
  dataClient_stream := fun _ => ["data"];
  asScoped := fun c req => Resolved (c, req);
  getScopedClient := fun _ req => Resolved req;
  asScopedToClient := fun _ so => Resolved so
|}.

Definition coreSetup : InternalCoreSetup (P := platform_no_admin) :=
  @Build_InternalCoreSetup platform_no_admin tt tt tt tt tt tt.

(** What [plugins.discover()] finds when a plugin carries the legacy
    identifier. *)
Definition discovered_with_legacy
  : JSMap (PluginOpaqueId (Platform := Sample.platform))
          (list (PluginOpaqueId (Platform := Sample.platform))) :=
  new_Map [("data", []); ("legacy", ["data"]); ("security", ["data"])].

(** Sample [config] objects and a [setSchema] that refuses the [plugins]
    schema. *)
Definition configs : CoreConfigs string nat :=
  {| elasticsearchConfig := {| config_path := "elasticsearch"; config_schema := 1 |};
     loggingConfig := {| config_path := "logging"; config_schema := 2 |};
     httpConfig := {| config_path := "server"; config_schema := 3 |};
     pluginsConfig := {| config_path := "plugins"; config_schema := 4 |};
     devConfig := {| config_path := "dev"; config_schema := 5 |};
     kibanaConfig := {| config_path := "kibana"; config_schema := 6 |};
     savedObjectsConfig := {| config_path := "savedObjects"; config_schema := 7 |};
     uiSettingsConfig := {| config_path := "uiSettings"; config_schema := 8 |} |}.

Definition SchemaError : JSError :=
  {| err_name := "Error"; err_message := "Validation schema was already registered" |}.

Definition setSchema_ok : SetSchema string nat := fun _ _ _ => Resolved tt.

Definition setSchema_refusing_plugins : SetSchema string nat := fun path _ _ =>
  if decide (path = "plugins") then Rejected SchemaError else Resolved tt.

(** Url parameters of the monitor list. *)
Definition urlParams : Uptime.UrlParams :=
  <[ "absoluteDateRangeStart" := Uptime.PNum 1000 ]>
  (<[ "absoluteDateRangeEnd" := Uptime.PNum 2000 ]>
  (<[ "selectedPingStatus" := Uptime.PStr "up" ]>
  (<[ "search" := Uptime.PStr "host" ]> ∅))).

End Outage.

(** * Properties *)

(** ** The XY expression functions *)

Lemma obj_spread_lookup_src (base src : Obj) k v :
  src !! k = Some v → obj_spread base src !! k = Some v.
Proof. intros Hk. unfold obj_spread. by apply lookup_union_Some_l. Qed.

Lemma obj_spread_dom (base src : Obj) :
  dom (obj_spread base src) = dom base ∪ dom src.
Proof. unfold obj_spread. rewrite dom_union_L. apply (comm_L (∪)). Qed.

Lemma obj_spread_singleton_fresh k v (src : Obj) :
  src !! k = None → obj_spread {[ k := v ]} src = <[ k := v ]> src.
Proof. intros Hk. unfold obj_spread. by rewrite insert_union_singleton_r. Qed.

Lemma set_optional_lookup_ne k k' v (o : Obj) :
  k ≠ k' → XY.set_optional k v o !! k' = o !! k'.
Proof. intros Hne. destruct v; simpl; [by apply lookup_insert_ne | done]. Qed.

(** The declared argument types have no member called [type]. *)
Lemma LegendConfig_obj_no_type l : XY.LegendConfig_obj l !! "type" = None.
Proof. reflexivity. Qed.

Lemma AxisConfig_obj_no_type a : XY.AxisConfig_obj a !! "type" = None.
Proof. unfold XY.AxisConfig_obj. by rewrite set_optional_lookup_ne. Qed.

Lemma XConfig_obj_no_type x : XY.XConfig_obj x !! "type" = None.
Proof.
  unfold XY.XConfig_obj. rewrite lookup_insert_ne by done.
  apply AxisConfig_obj_no_type.
Qed.

Lemma LayerArgs_obj_no_type a : XY.LayerArgs_obj a !! "type" = None.
Proof.
  unfold XY.LayerArgs_obj, XY.LayerConfig_obj.
  rewrite set_optional_lookup_ne by done.
  rewrite !lookup_insert_ne by done.
  apply AxisConfig_obj_no_type.
Qed.

(** C10. Each of [legendConfig.fn], [xConfig.fn] and [layerConfig.fn]
    returns its [args] with one more member, [type], set to
    ['lens_xy_legendConfig'], ['lens_xy_xConfig'] and ['lens_xy_layer']
    respectively, for every [args] of the declared type and every context.
    For any object [args] at all, every member of [args] is in the result
    with the same value, the result has no member besides those and
    [type], and the context argument is ignored. *)
Theorem xy_fn_adds_type (ctx : Value) :
  (∀ l : XY.LegendConfig,
     XY.legendConfig_fn ctx (XY.LegendConfig_obj l)
     = <[ "type" := VStr "lens_xy_legendConfig" ]> (XY.LegendConfig_obj l))
  ∧ (∀ x : XY.XConfig,
     XY.xConfig_fn ctx (XY.XConfig_obj x)
     = <[ "type" := VStr "lens_xy_xConfig" ]> (XY.XConfig_obj x))
  ∧ (∀ a : XY.LayerArgs,
     XY.layerConfig_fn ctx (XY.LayerArgs_obj a)
     = <[ "type" := VStr "lens_xy_layer" ]> (XY.LayerArgs_obj a))
  ∧ (∀ (args : Obj) k v, args !! k = Some v →
     XY.legendConfig_fn ctx args !! k = Some v
     ∧ XY.xConfig_fn ctx args !! k = Some v
     ∧ XY.layerConfig_fn ctx args !! k = Some v)
  ∧ (∀ args : Obj,
     dom (XY.legendConfig_fn ctx args) = {[ "type" ]} ∪ dom args
     ∧ dom (XY.xConfig_fn ctx args) = {[ "type" ]} ∪ dom args
     ∧ dom (XY.layerConfig_fn ctx args) = {[ "type" ]} ∪ dom args)
  ∧ (∀ (args : Obj) ctx',
     XY.legendConfig_fn ctx' args = XY.legendConfig_fn ctx args
     ∧ XY.xConfig_fn ctx' args = XY.xConfig_fn ctx args
     ∧ XY.layerConfig_fn ctx' args = XY.layerConfig_fn ctx args).
Proof.
  unfold XY.legendConfig_fn, XY.xConfig_fn, XY.layerConfig_fn.
  split_and!.
  - intros l. apply obj_spread_singleton_fresh, LegendConfig_obj_no_type.
  - intros x. apply obj_spread_singleton_fresh, XConfig_obj_no_type.
  - intros a. apply obj_spread_singleton_fresh, LayerArgs_obj_no_type.
  - intros args k v Hk. split_and!; by apply obj_spread_lookup_src.
  - intros args. by rewrite !obj_spread_dom, !dom_singleton_L.
  - done.
Qed.

Lemma xy_fn_adds_type_witness :
  XY.legendConfig_fn VNull (XY.LegendConfig_obj XY.sample_legend)
  = <[ "type" := VStr "lens_xy_legendConfig" ]> (XY.LegendConfig_obj XY.sample_legend)
  ∧ XY.legendConfig_fn VNull (XY.LegendConfig_obj XY.sample_legend) !! "position"
    = Some (VStr "right").
Proof.
  pose proof (xy_fn_adds_type VNull) as (Hlegend & _ & _ & Hkeep & _).
  split.
  - exact (Hlegend XY.sample_legend).
  - exact (proj1 (Hkeep (XY.LegendConfig_obj XY.sample_legend)
                    "position" (VStr "right") eq_refl)).
Defined.

(** ** Facts about [Map] *)

Section JSMapFacts.
Context {K V : Type} `{EqDecision K}.
Implicit Types (k : K) (v : V) (es it : list (K * V)) (m : JSMap K V).

Lemma JSMap_NoDup m : NoDup (JSMap_keys m).
Proof. exact (bool_decide_unpack _ (entries_NoDup m)). Qed.

Lemma entries_get_set_eq k v es : entries_get k (entries_set k v es) = Some v.
Proof.
  induction es as [|[k' v'] es IH]; csimpl.
  - by rewrite decide_True.
  - destruct (decide (k = k')) as [->|Hne]; csimpl.
    + by rewrite decide_True.
    + by rewrite decide_False.
Qed.

Lemma entries_get_set_ne k k' v es :
  k ≠ k' → entries_get k' (entries_set k v es) = entries_get k' es.
Proof.
  intros Hne. induction es as [|[k0 v0] es IH]; csimpl.
  - by rewrite decide_False.
  - destruct (decide (k = k0)) as [->|Hne0]; csimpl.
    + by rewrite !decide_False.
    + by rewrite IH.
Qed.

Lemma entries_set_fresh k v es : k ∉ es.*1 → entries_set k v es = es ++ [(k, v)].
Proof.
  induction es as [|[k' v'] es IH]; csimpl; [done |].
  intros Hnin. apply not_elem_of_cons in Hnin as [Hne Hnin].
  rewrite decide_False by done. by rewrite IH.
Qed.

Lemma entries_fold_fresh it es :
  NoDup (es.*1 ++ it.*1) →
  fold_left (fun es kv => entries_set kv.1 kv.2 es) it es = es ++ it.
Proof.
  revert es. induction it as [|[k v] it IH]; intros es Hnd; csimpl.
  - by rewrite app_nil_r.
  - csimpl in Hnd. apply NoDup_app in Hnd as (Hes & Hdisj & Hit).
    apply NoDup_cons in Hit as [Hk Hit].
    assert (k ∉ es.*1) as Hfresh.
    { intros Hin. apply (Hdisj k Hin). by left. }
    rewrite entries_set_fresh by done.
    rewrite IH.
    + by rewrite <- app_assoc.
    + rewrite fmap_app. csimpl. rewrite <- app_assoc. csimpl.
      apply NoDup_app. split_and!; [done | | by apply NoDup_cons].
      intros x Hx [->|Hx']%elem_of_cons; [contradiction |].
      apply (Hdisj x Hx). by right.
Qed.

(** Copying a map's own entries into a new map changes nothing. *)
Lemma entries_of_iterable_id it : NoDup it.*1 → entries_of_iterable it = it.
Proof. intros Hnd. unfold entries_of_iterable. by rewrite entries_fold_fresh. Qed.

Lemma entries_get_None k es : k ∉ es.*1 → entries_get k es = None.
Proof.
  induction es as [|[k' v'] es IH]; csimpl; [done |].
  intros [Hne Hnin]%not_elem_of_cons. rewrite decide_False by done. auto.
Qed.

Lemma entries_get_app_l k es es' :
  k ∉ es'.*1 → entries_get k (es ++ es') = entries_get k es.
Proof.
  intros Hnin. induction es as [|[k' v'] es IH]; csimpl.
  - by apply entries_get_None.
  - by rewrite IH.
Qed.

Lemma entries_get_elem_of k v es : entries_get k es = Some v → (k, v) ∈ es.
Proof.
  induction es as [|[k' v'] es IH]; csimpl; [done |].
  destruct (decide (k = k')) as [->|Hk]; [intros [= ->]; by left | intros; right; auto].
Qed.

End JSMapFacts.

(** ** The dependency map handed to the context service *)

Section Dependencies.
Context `{P : Platform}.

Lemma entries_fold_get_last (k : PluginOpaqueId) (v : list PluginOpaqueId) it es :
  entries_get k
    (fold_left (fun es kv => entries_set kv.1 kv.2 es) (it ++ [(k, v)]) es)
  = Some v.
Proof. rewrite fold_left_app. simpl. apply entries_get_set_eq. Qed.

Lemma entries_fold_get_ne (k k' : PluginOpaqueId) (v : list PluginOpaqueId) it es :
  k ≠ k' →
  entries_get k'
    (fold_left (fun es kv => entries_set kv.1 kv.2 es) (it ++ [(k, v)]) es)
  = entries_get k' (fold_left (fun es kv => entries_set kv.1 kv.2 es) it es).
Proof. intros Hne. rewrite fold_left_app. simpl. by apply entries_get_set_ne. Qed.

(** The legacy entry lists every discovered plugin. *)
Lemma withLegacyDependencies_legacy deps :
  JSMap_get legacyId (withLegacyDependencies deps) = Some (JSMap_keys deps).
Proof. apply entries_fold_get_last. Qed.

(** Every other entry is the discovered one. *)
Lemma withLegacyDependencies_other deps k :
  k ≠ legacyId →
  JSMap_get k (withLegacyDependencies deps) = JSMap_get k deps.
Proof.
  intros Hne. unfold JSMap_get, withLegacyDependencies, new_Map; simpl.
  unfold entries_of_iterable. rewrite entries_fold_get_ne by done.
  fold (entries_of_iterable (entries deps)).
  rewrite entries_of_iterable_id; [done | apply JSMap_NoDup].
Qed.

Lemma withLegacyDependencies_entries deps :
  legacyId ∉ JSMap_keys deps →
  entries (withLegacyDependencies deps) = entries deps ++ [(legacyId, JSMap_keys deps)].
Proof.
  intros Hfresh. unfold withLegacyDependencies, new_Map; simpl.
  apply entries_of_iterable_id. rewrite fmap_app. simpl.
  apply NoDup_app. split_and!; [apply JSMap_NoDup | | apply NoDup_singleton].
  intros x Hx ->%list_elem_of_singleton. contradiction.
Qed.

End Dependencies.

(** ** Runs of the lifecycle methods *)

(** Case analysis on how the next service call settles. *)
Ltac next_call :=
  match goal with
  | |- context [ match ?svc ?o ?h with _ => _ end ] =>
      destruct (svc o h) eqn:?; simpl
  end.

Ltac all_runs := simpl; repeat next_call.

(** Membership in an explicit list, hypothesis and goal. *)
Ltac inv_elem H :=
  repeat match type of H with
  | _ ∈ [] => by apply elem_of_nil in H
  | _ ∈ _ :: _ => apply elem_of_cons in H as [H|H]; [try discriminate H|]
  end.

Ltac in_list :=
  repeat first [ apply list_elem_of_here | apply list_elem_of_further ].

(** Position in an explicit list. *)
Ltac inv_lookup H i :=
  repeat match type of H with
  | [] !! _ = Some _ => by destruct i
  | (_ :: _) !! _ = Some _ => destruct i as [|i]; simpl in H; [try discriminate H|]
  end.

Section Lifecycle.
Context `{P : Platform}.

(** A run stops at the first call that rejects, with that error. *)
Lemma exec_rejected_last {A} (svc : Services) (p : Prog A) past i o e :
  trace_of svc p past !! i = Some (EvCall o (rejected e)) →
  outcome_of svc p past = Rejected e ∧ length (trace_of svc p past) = S i.
Proof.
  unfold trace_of, outcome_of.
  revert past i. induction p as [a|msg k IH|o' k IH]; intros past i; simpl.
  - by destruct i.
  - destruct (exec svc k (past ++ [EvDebug msg])) as [r t] eqn:Hk; simpl.
    destruct i as [|i]; simpl; [done |].
    intros Hi. specialize (IH (past ++ [EvDebug msg]) i).
    rewrite Hk in IH. simpl in IH. destruct (IH Hi) as [-> ->]. done.
  - destruct (svc o' past) as [x|e'] eqn:Hcall; simpl.
    + destruct (exec svc (k x) (past ++ [EvCall o' resolved])) as [r t] eqn:Hk.
      simpl. destruct i as [|i]; simpl; [done |].
      intros Hi. specialize (IH x (past ++ [EvCall o' resolved]) i).
      rewrite Hk in IH. simpl in IH. destruct (IH Hi) as [-> ->]. done.
    + destruct i as [|i]; simpl; [by intros [= -> ->] | by destruct i].
Qed.

(** A run that rejects ends with the call that rejected. *)
Lemma exec_rejected_by_call {A} (svc : Services) (p : Prog A) past e :
  outcome_of svc p past = Rejected e →
  ∃ o, last (trace_of svc p past) = Some (EvCall o (rejected e)).
Proof.
  unfold trace_of, outcome_of.
  revert past. induction p as [a|msg k IH|o' k IH]; intros past; simpl.
  - done.
  - specialize (IH (past ++ [EvDebug msg])).
    destruct (exec svc k (past ++ [EvDebug msg])) as [r t]; simpl in *.
    intros Hr. destruct (IH Hr) as [o Ho]. exists o.
    destruct t; [done | by rewrite last_cons, Ho].
  - destruct (svc o' past) as [x|e'] eqn:Hcall; simpl.
    + specialize (IH x (past ++ [EvCall o' resolved])).
      destruct (exec svc (k x) (past ++ [EvCall o' resolved])) as [r t].
      simpl in *. intros Hr. destruct (IH Hr) as [o Ho]. exists o.
      destruct t; [done | by rewrite last_cons, Ho].
    + intros [= ->]. by exists o'.
Qed.

(** In a run that resolves, every call resolved. *)
Lemma exec_resolved_all {A} (svc : Services) (p : Prog A) past a :
  outcome_of svc p past = Resolved a → all_resolved (trace_of svc p past).
Proof.
  intros Hr o s Hin. destruct s as [|e]; [done |].
  apply list_elem_of_lookup in Hin as [i Hi].
  apply exec_rejected_last in Hi as [Hrej _]. congruence.
Qed.

(** C1. In every run of [setup()] the calls made are an initial part of
    the program order: [plugins.discover], [legacy.discoverPlugins],
    [ensureValidConfiguration], then the setups of context, http (followed
    by the registration of the default route), capabilities,
    elasticsearch, ui settings, saved objects, plugins and legacy, then
    the registration of the core context. A run that resolves made all of
    them and each resolved. Whenever a service's [setup] is called, both
    discovery calls have been made before it and have resolved. *)
Theorem Server_setup_order (svc : Services) (past : list Event) :
  let t := trace_of svc Server_setup past in
  (method <$> calls t) `prefix_of` setup_sequence
  ∧ (∀ coreSetup, outcome_of svc Server_setup past = Resolved coreSetup →
       method <$> calls t = setup_sequence ∧ all_resolved t)
  ∧ (∀ i o s, t !! i = Some (EvCall o s) → is_setup (method o) = true →
       t !! 1 = Some (EvCall plugins_discover resolved)
       ∧ t !! 2 = Some (EvCall legacy_discoverPlugins resolved)
       ∧ 2 < i).
Proof.
  intros t. split_and!.
  - subst t. unfold trace_of, Server_setup. all_runs;
      (eexists; reflexivity).
  - intros coreSetup Hres. split; [| by eapply exec_resolved_all].
    revert Hres. subst t. unfold trace_of, outcome_of, Server_setup.
    all_runs; done.
  - intros i o s. subst t. unfold trace_of, Server_setup.
    all_runs; intros Hi Hset; inv_lookup Hi i; simplify_eq;
      (try discriminate Hset); (split_and!; [done | done | lia]).
Qed.

(** When [ensureValidConfiguration] rejects, [setup()] stops there. *)
Lemma setup_stops_at_validation (svc : Services) (past : list Event) (e : JSError) :
  (∀ legacyPlugins h, svc (ensureValidConfiguration legacyPlugins) h = Rejected e) →
  (∃ e', outcome_of svc Server_setup past = Rejected e'
         ∧ (EvCall plugins_discover resolved ∈ trace_of svc Server_setup past →
            EvCall legacy_discoverPlugins resolved ∈ trace_of svc Server_setup past →
            e' = e))
  ∧ (∀ o, o ∈ calls (trace_of svc Server_setup past) →
       is_setup (method o) = false ∧ is_start (method o) = false)
  ∧ (method <$> calls (trace_of svc Server_setup past)) `prefix_of`
      [M_plugins_discover; M_legacy_discoverPlugins; M_ensureValidConfiguration].
Proof.
  intros Hinvalid.
  unfold trace_of, outcome_of, Server_setup. simpl.
  next_call; [next_call; [rewrite Hinvalid; simpl |] |].
  all: split_and!;
    [ eexists; split; [reflexivity |];
      intros H1 H2; inv_elem H1; inv_elem H2; done
    | intros o Ho; inv_elem Ho; by subst
    | eexists; reflexivity ].
Qed.

Lemma validate_configuration_invalid config s :
  s ∈ config → section_valid s = false →
  ∃ s', s' ∈ config ∧ section_valid s' = false
        ∧ validate_configuration config = Rejected (invalid_section_error s').
Proof.
  unfold validate_configuration.
  induction config as [|s0 config IH]; intros Hin Hs; [by apply elem_of_nil in Hin |].
  simpl. destruct (section_valid s0) eqn:Hs0.
  - apply elem_of_cons in Hin as [->|Hin]; [congruence |].
    destruct (IH Hin Hs) as (s' & Hin' & Hs' & Hv).
    exists s'. split_and!; [by right | done | done].
  - exists s0. split_and!; [by left | done | done].
Qed.

(** C2. When some section of the configuration fails its schema,
    [setup()] rejects, and with the error of the validation as soon as
    both discovery calls have resolved. No service's [setup] or [start] is
    called in that run: the calls made are an initial part of
    [plugins.discover], [legacy.discoverPlugins],
    [ensureValidConfiguration]. *)
Theorem Server_setup_invalid_configuration
    (svc : Services) (past : list Event) (config : list ConfigSection) s :
  validates svc config →
  s ∈ config → section_valid s = false →
  let t := trace_of svc Server_setup past in
  (∃ e, outcome_of svc Server_setup past = Rejected e
        ∧ (EvCall plugins_discover resolved ∈ t →
           EvCall legacy_discoverPlugins resolved ∈ t →
           validate_configuration config = Rejected e))
  ∧ (∀ o, o ∈ calls t →
       is_setup (method o) = false ∧ is_start (method o) = false)
  ∧ (method <$> calls t) `prefix_of`
      [M_plugins_discover; M_legacy_discoverPlugins; M_ensureValidConfiguration].
Proof.
  intros Hval Hin Hs t. subst t.
  destruct (validate_configuration_invalid config s Hin Hs) as (s' & _ & _ & Hrej).
  destruct (setup_stops_at_validation svc past (invalid_section_error s'))
    as ((e & He & Hsame) & Hnone & Hprefix).
  { intros lp h. by rewrite Hval. }
  split_and!; [| exact Hnone | exact Hprefix].
  exists e. split; [exact He |].
  intros H1 H2. rewrite Hrej. f_equal. symmetry. by apply Hsame.
Qed.

(** C3. In every run of [start()] the calls made are an initial part of
    [savedObjects.start], [capabilities.start], [plugins.start],
    [legacy.start], [http.start]. [plugins.start] receives the contracts
    the first two returned. Whenever [http.start] is called it is the
    last call of the run and the four calls before it have resolved. A
    run that resolves made all five calls in that order. *)
Theorem Server_start_order (svc : Services) (past : list Event) :
  let t := trace_of svc Server_start past in
  let past1 := past ++ [EvDebug "starting server"] in
  let past2 := past1 ++ [EvCall savedObjects_start resolved] in
  (method <$> calls t) `prefix_of` start_sequence
  ∧ (∀ capabilities savedObjects,
       plugins_start capabilities savedObjects ∈ calls t →
       svc savedObjects_start past1 = Resolved savedObjects
       ∧ svc capabilities_start past2 = Resolved capabilities)
  ∧ (∀ i s, t !! i = Some (EvCall http_start s) →
       ∃ coreStart,
         t = [ EvDebug "starting server";
               EvCall savedObjects_start resolved;
               EvCall capabilities_start resolved;
               EvCall (plugins_start (start_capabilities coreStart)
                                     (start_savedObjects coreStart)) resolved;
               EvCall (legacy_start coreStart
                         (mapToObject (start_contracts (start_plugins coreStart))))
                      resolved;
               EvCall http_start s ])
  ∧ (∀ coreStart, outcome_of svc Server_start past = Resolved coreStart →
       t = [ EvDebug "starting server";
             EvCall savedObjects_start resolved;
             EvCall capabilities_start resolved;
             EvCall (plugins_start (start_capabilities coreStart)
                                   (start_savedObjects coreStart)) resolved;
             EvCall (legacy_start coreStart
                       (mapToObject (start_contracts (start_plugins coreStart))))
                    resolved;
             EvCall http_start resolved ]).
Proof.
  intros t past1 past2. subst t past1 past2. split_and!.
  - unfold trace_of, Server_start. all_runs; (eexists; reflexivity).
  - intros cap so. unfold trace_of, Server_start.
    all_runs; intros Hin; inv_elem Hin; by simplify_eq.
  - intros i s. unfold trace_of, Server_start.
    all_runs; intros Hi; inv_lookup Hi i; simplify_eq;
      (eexists {| start_capabilities := _ |}; reflexivity).
  - intros coreStart. unfold trace_of, outcome_of, Server_start.
    all_runs; intros Hres; by simplify_eq.
Qed.

(** C4. In a run of [stop()] in which no service's [stop] rejects, the
    calls are [legacy.stop], [plugins.stop], [savedObjects.stop],
    [elasticsearch.stop], [http.stop], once each and in that order, each
    resolved before the next is made, and [stop()] resolves. *)
Theorem Server_stop_order (svc : Services) (past : list Event) :
  (∀ o e, is_stop (method o) = true →
          EvCall o (rejected e) ∉ trace_of svc Server_stop past) →
  outcome_of svc Server_stop past = Resolved tt
  ∧ trace_of svc Server_stop past =
      [ EvDebug "stopping server";
        EvCall legacy_stop resolved;
        EvCall plugins_stop resolved;
        EvCall savedObjects_stop resolved;
        EvCall elasticsearch_stop resolved;
        EvCall http_stop resolved ].
Proof.
  unfold trace_of, outcome_of, Server_stop.
  all_runs; intros Hno; try done.
  all: exfalso; eapply Hno; cycle 1; [in_list | reflexivity].
Qed.

(** C5. When the [stop] of one service rejects in a run of [stop()],
    [stop()] rejects with that error, the services before it in the
    sequence legacy, plugins, savedObjects, elasticsearch, http were
    stopped, and no service after it is called. *)
Theorem Server_stop_aborts (svc : Services) (past : list Event) o e :
  EvCall o (rejected e) ∈ trace_of svc Server_stop past →
  outcome_of svc Server_stop past = Rejected e
  ∧ ∃ before after,
      stop_sequence = before ++ method o :: after
      ∧ method <$> calls (trace_of svc Server_stop past) = before ++ [method o]
      ∧ ∀ o', o' ∈ calls (trace_of svc Server_stop past) → method o' ∉ after.
Proof.
  intros Hin. split.
  { apply list_elem_of_lookup in Hin as [i Hi].
    by apply exec_rejected_last in Hi as [? _]. }
  revert Hin. unfold trace_of, Server_stop.
  all_runs; intros Hin; inv_elem Hin; simplify_eq.
  - exists [M_legacy_stop; M_plugins_stop; M_savedObjects_stop; M_elasticsearch_stop], [].
    split_and!; [done | done |]. intros o' Ho' Hafter. inv_elem Hafter.
  - exists [M_legacy_stop; M_plugins_stop; M_savedObjects_stop], [M_http_stop].
    split_and!; [done | done |]. intros o' Ho' Hafter.
    inv_elem Ho'; subst; inv_elem Hafter.
  - exists [M_legacy_stop; M_plugins_stop], [M_elasticsearch_stop; M_http_stop].
    split_and!; [done | done |]. intros o' Ho' Hafter.
    inv_elem Ho'; subst; inv_elem Hafter.
  - exists [M_legacy_stop], [M_savedObjects_stop; M_elasticsearch_stop; M_http_stop].
    split_and!; [done | done |]. intros o' Ho' Hafter.
    inv_elem Ho'; subst; inv_elem Hafter.
  - exists [], [M_plugins_stop; M_savedObjects_stop; M_elasticsearch_stop; M_http_stop].
    split_and!; [done | done |]. intros o' Ho' Hafter.
    inv_elem Ho'; subst; inv_elem Hafter.
Qed.


(** C7. The map [setup()] hands to [context.setup] is the discovered map
    with the legacy entry put in: the legacy identifier maps to the list
    of all discovered identifiers and every other identifier maps to what
    it mapped to in the discovered map, so no discovered plugin depends
    on the legacy identifier through it. The legacy identifier not being
    a discovered plugin, the result is the discovered entries, unchanged
    and in their order, followed by that one entry. [context.setup] is
    called with this map once the configuration has been validated, and
    with no other. *)
Theorem setup_pluginDependencies (svc : Services) (past : list Event)
    (deps : JSMap PluginOpaqueId (list PluginOpaqueId)) :
  svc plugins_discover (past ++ [EvDebug "setting up server"]) = Resolved deps →
  (∀ m, context_setup m ∈ calls (trace_of svc Server_setup past) →
        m = withLegacyDependencies deps)
  ∧ (∀ lp, EvCall (ensureValidConfiguration lp) resolved
             ∈ trace_of svc Server_setup past →
        context_setup (withLegacyDependencies deps)
          ∈ calls (trace_of svc Server_setup past))
  ∧ JSMap_get legacyId (withLegacyDependencies deps) = Some (JSMap_keys deps)
  ∧ (∀ k, k ≠ legacyId →
        JSMap_get k (withLegacyDependencies deps) = JSMap_get k deps)
  ∧ (legacyId ∉ JSMap_keys deps →
        entries (withLegacyDependencies deps)
        = entries deps ++ [(legacyId, JSMap_keys deps)]
        ∧ JSMap_size (withLegacyDependencies deps) = S (JSMap_size deps)).
Proof.
  intros Hdisc. split_and!.
  - intros m. unfold trace_of, Server_setup. simpl. rewrite Hdisc.
    all_runs; intros Hin; inv_elem Hin; by simplify_eq.
  - intros lp. unfold trace_of, Server_setup. simpl. rewrite Hdisc.
    all_runs; intros Hin; inv_elem Hin; try (simplify_eq; fail).
    all: do 3 apply list_elem_of_further; apply list_elem_of_here.
  - apply withLegacyDependencies_legacy.
  - intros k Hk. by apply withLegacyDependencies_other.
  - intros Hfresh. split; [by apply withLegacyDependencies_entries |].
    unfold JSMap_size. rewrite withLegacyDependencies_entries by done.
    rewrite length_app. simpl. lia.
Qed.

(** C8. The only route [setup()] registers is [GET /] on the router made
    for ['/core'], without validation, and its handler answers every
    request, whatever the context and the request, with [res.ok] of a
    body whose only member is [version: '0.0.1']; it never rejects. *)
Theorem defaultRoute_version (svc : Services) (past : list Event) :
  let t := trace_of svc Server_setup past in
  (∀ router route handler, router_get router route handler ∈ calls t →
     route = {| path := "/"; validate := false |}
     ∧ handler = defaultRouteHandler
     ∧ ∃ httpSetup, http_createRouter httpSetup "/core" ∈ calls t)
  ∧ (∀ coreSetup, outcome_of svc Server_setup past = Resolved coreSetup →
     ∃ router,
       router_get router {| path := "/"; validate := false |} defaultRouteHandler
         ∈ calls t)
  ∧ (∀ context req res,
     ∃ options,
       defaultRouteHandler context req res = Resolved (ok res options)
       ∧ body options !! "version" = Some (VStr "0.0.1")
       ∧ dom (body options) = {[ "version" ]})
  ∧ (∀ context context' req req' res,
     defaultRouteHandler context req res = defaultRouteHandler context' req' res).
Proof.
  intros t. subst t. split_and!.
  - intros router route handler. unfold trace_of, Server_setup.
    all_runs; intros Hin; inv_elem Hin; simplify_eq;
      (split_and!; [done | done | eexists; in_list]).
  - intros coreSetup. unfold trace_of, outcome_of, Server_setup.
    all_runs; intros Hres; simplify_eq. eexists. in_list.
  - intros context req res. eexists. split_and!; [reflexivity | |]; simpl.
    + apply lookup_singleton_eq.
    + apply dom_singleton_L.
  - done.
Qed.

(** C6. [setup()] registers one context provider, under the name
    ['core'], made from the contracts of that run. For a request [req] the provider resolves exactly when the
    admin and the data stream have a first value and the scoping calls
    succeed, and the context it resolves with has the saved-objects
    client scoped to [req], the first admin and data clients scoped to
    [req], and the ui-settings client made from that saved-objects
    client. With scoping methods that make a client per request, two
    different requests get different clients in all four places. *)
Theorem coreContext_scoped (coreSetup : InternalCoreSetup) :
  (∀ svc past,
     calls (trace_of svc (registerCoreContext coreSetup) past)
     = [ http_registerRouteHandlerContext (setup_http coreSetup) coreId "core"
           (coreContextProvider coreSetup) ])
  ∧ (∀ svc past httpSetup pluginOpaqueId contextName provider,
     http_registerRouteHandlerContext httpSetup pluginOpaqueId contextName provider
       ∈ calls (trace_of svc Server_setup past) →
     pluginOpaqueId = coreId ∧ contextName = "core"
     ∧ ∃ core, provider = coreContextProvider core ∧ httpSetup = setup_http core)
  ∧ (∀ context req core,
     coreContextProvider coreSetup context req = Resolved core ↔
     ∃ admin data,
       take1_toPromise (adminClient_stream (setup_elasticsearch coreSetup))
         = Some admin
       ∧ take1_toPromise (dataClient_stream (setup_elasticsearch coreSetup))
         = Some data
       ∧ getScopedClient (setup_savedObjects coreSetup) req
         = Resolved (savedObjects_client (savedObjects core))
       ∧ asScoped admin req = Resolved (adminClient (elasticsearch core))
       ∧ asScoped data req = Resolved (dataClient (elasticsearch core))
       ∧ asScopedToClient (setup_uiSettings coreSetup)
           (savedObjects_client (savedObjects core))
         = Resolved (uiSettings_client (uiSettings core)))
  ∧ (∀ context1 context2 req1 req2 core1 core2,
     scoped_per_request →
     req1 ≠ req2 →
     coreContextProvider coreSetup context1 req1 = Resolved core1 →
     coreContextProvider coreSetup context2 req2 = Resolved core2 →
     savedObjects_client (savedObjects core1) ≠ savedObjects_client (savedObjects core2)
     ∧ adminClient (elasticsearch core1) ≠ adminClient (elasticsearch core2)
     ∧ dataClient (elasticsearch core1) ≠ dataClient (elasticsearch core2)
     ∧ uiSettings_client (uiSettings core1) ≠ uiSettings_client (uiSettings core2)).
Proof.
  assert (∀ context req core,
     coreContextProvider coreSetup context req = Resolved core →
     ∃ admin data,
       take1_toPromise (adminClient_stream (setup_elasticsearch coreSetup))
         = Some admin
       ∧ take1_toPromise (dataClient_stream (setup_elasticsearch coreSetup))
         = Some data
       ∧ getScopedClient (setup_savedObjects coreSetup) req
         = Resolved (savedObjects_client (savedObjects core))
       ∧ asScoped admin req = Resolved (adminClient (elasticsearch core))
       ∧ asScoped data req = Resolved (dataClient (elasticsearch core))
       ∧ asScopedToClient (setup_uiSettings coreSetup)
           (savedObjects_client (savedObjects core))
         = Resolved (uiSettings_client (uiSettings core))) as Hshape.
  { intros context req core. unfold coreContextProvider.
    destruct (getScopedClient _ req) as [so|] eqn:Hso; simpl; [| done].
    destruct (take1_toPromise (adminClient_stream _)) as [admin|]; simpl; [| done].
    destruct (asScoped admin req) as [sa|] eqn:Hsa; simpl; [| done].
    destruct (take1_toPromise (dataClient_stream _)) as [data|]; simpl; [| done].
    destruct (asScoped data req) as [sd|] eqn:Hsd; simpl; [| done].
    destruct (asScopedToClient _ so) as [ui|] eqn:Hui; simpl; [| done].
    intros [= <-]. exists admin, data. by simpl. }
  split_and!.
  - intros svc past. unfold trace_of, registerCoreContext. by all_runs.
  - intros svc past httpSetup pluginOpaqueId contextName provider.
    unfold trace_of, Server_setup.
    all_runs; intros Hin; inv_elem Hin; simplify_eq.
    all: split_and!; [done | done |]; eexists; split; reflexivity.
  - intros context req core. split; [apply Hshape |].
    intros (admin & data & Ha & Hd & Hso & Hsa & Hsd & Hui).
    unfold coreContextProvider. rewrite Ha, Hd, Hso. simpl.
    rewrite Hsa. simpl. rewrite Hsd. simpl. rewrite Hui. simpl.
    by destruct core as [[?] [? ?] [?]].
  - intros context1 context2 req1 req2 core1 core2 (Hes & Hso & Hui) Hne H1 H2.
    apply Hshape in H1 as (a1 & d1 & _ & _ & Hso1 & Hsa1 & Hsd1 & Hui1).
    apply Hshape in H2 as (a2 & d2 & _ & _ & Hso2 & Hsa2 & Hsd2 & Hui2).
    assert (savedObjects_client (savedObjects core1)
            ≠ savedObjects_client (savedObjects core2)) as Hsone
      by exact (Hso _ _ _ _ _ Hso1 Hso2 Hne).
    split_and!.
    + exact Hsone.
    + exact (Hes _ _ _ _ _ _ Hsa1 Hsa2 Hne).
    + exact (Hes _ _ _ _ _ _ Hsd1 Hsd2 Hne).
    + exact (Hui _ _ _ _ _ Hui1 Hui2 Hsone).
Qed.

(** C9, as the code has it. [start()] keeps and checks no lifecycle
    state: whatever happened on the instance before, it logs, calls
    [savedObjects.start] and goes on through the start sequence; it
    rejects only when one of the services' [start] calls rejects, and it
    resolves when none of them does. *)
Theorem Server_start_unguarded (svc : Services) (past : list Event) :
  let t := trace_of svc Server_start past in
  (∃ s t', t = EvDebug "starting server" :: EvCall savedObjects_start s :: t')
  ∧ (method <$> calls t) `prefix_of` start_sequence
  ∧ (∀ e, outcome_of svc Server_start past = Rejected e →
       ∃ o, is_start (method o) = true ∧ last t = Some (EvCall o (rejected e)))
  ∧ ((∀ o e, is_start (method o) = true → EvCall o (rejected e) ∉ t) →
       ∃ coreStart, outcome_of svc Server_start past = Resolved coreStart).
Proof.
  intros t. subst t. unfold trace_of, outcome_of, Server_start. split_and!.
  - all_runs; (do 2 eexists; reflexivity).
  - all_runs; (eexists; reflexivity).
  - intros e. all_runs; intros Hrej; simplify_eq; (eexists; split; [| reflexivity]; done).
  - all_runs; intros Hno; try (eexists; reflexivity).
    all: exfalso; eapply Hno; cycle 1; [in_list | reflexivity].
Qed.

End Lifecycle.

(** ** The properties on the small installation *)

Lemma Server_setup_order_witness :
  outcome_of Sample.services Server_setup [] = Resolved Sample.coreSetup
  ∧ method <$> calls (trace_of Sample.services Server_setup []) = setup_sequence
  ∧ trace_of Sample.services Server_setup [] !! 1
    = Some (EvCall plugins_discover resolved)
  ∧ trace_of Sample.services Server_setup [] !! 2
    = Some (EvCall legacy_discoverPlugins resolved).
Proof.
  pose proof (Server_setup_order Sample.services []) as (_ & Hall & Hdisc).
  assert (outcome_of Sample.services Server_setup [] = Resolved Sample.coreSetup)
    as Hres by reflexivity.
  destruct (Hdisc 5 _ _ eq_refl eq_refl) as (H1 & H2 & _).
  split_and!; [exact Hres | exact (proj1 (Hall _ Hres)) | exact H1 | exact H2].
Defined.

Lemma Server_setup_invalid_configuration_witness :
  (∃ e, outcome_of Sample.services_invalid_config Server_setup [] = Rejected e
        ∧ validate_configuration Sample.invalid_config = Rejected e)
  ∧ ∀ o, o ∈ calls (trace_of Sample.services_invalid_config Server_setup []) →
         is_setup (method o) = false ∧ is_start (method o) = false.
Proof.
  destruct (Server_setup_invalid_configuration Sample.services_invalid_config []
              Sample.invalid_config
              {| section_path := "server"; section_valid := false |})
    as ((e & He & Hsame) & Hnone & _).
  - intros lp h. reflexivity.
  - simpl. in_list.
  - reflexivity.
  - split; [| exact Hnone].
    exists e. split; [exact He |]. apply Hsame; simpl; in_list.
Defined.

Lemma Server_start_order_witness :
  trace_of Sample.services Server_start []
  = [ EvDebug "starting server";
      EvCall savedObjects_start resolved;
      EvCall capabilities_start resolved;
      EvCall (plugins_start (start_capabilities Sample.coreStart)
                            (start_savedObjects Sample.coreStart)) resolved;
      EvCall (legacy_start Sample.coreStart
                (mapToObject (start_contracts (start_plugins Sample.coreStart))))
             resolved;
      EvCall http_start resolved ]
  ∧ Sample.services savedObjects_start [EvDebug "starting server"] = Resolved tt
  ∧ (∃ coreStart, trace_of Sample.services Server_start [] !! 4
       = Some (EvCall (legacy_start coreStart
                  (mapToObject (start_contracts (start_plugins coreStart))))
               resolved)).
Proof.
  pose proof (Server_start_order Sample.services []) as (_ & Hargs & Hlast & Hres).
  split_and!.
  - exact (Hres Sample.coreStart eq_refl).
  - refine (proj1 (Hargs _ _ _)). simpl. in_list.
  - destruct (Hlast 5 resolved eq_refl) as [coreStart Ht].
    exists coreStart. by rewrite Ht.
Defined.

Lemma Server_stop_order_witness :
  outcome_of Sample.services Server_stop [] = Resolved tt
  ∧ calls (trace_of Sample.services Server_stop [])
    = [legacy_stop; plugins_stop; savedObjects_stop; elasticsearch_stop; http_stop].
Proof.
  destruct (Server_stop_order Sample.services []) as [Hres Ht].
  - intros o e _ Hin. unfold trace_of in Hin. simpl in Hin. inv_elem Hin.
  - split; [exact Hres | by rewrite Ht].
Defined.

Lemma Server_stop_aborts_witness :
  EvCall plugins_stop (rejected Sample.StopError)
    ∈ trace_of Sample.services_failing_stop Server_stop []
  ∧ outcome_of Sample.services_failing_stop Server_stop [] = Rejected Sample.StopError
  ∧ ∃ before after,
      stop_sequence = before ++ M_plugins_stop :: after
      ∧ method <$> calls (trace_of Sample.services_failing_stop Server_stop [])
        = before ++ [M_plugins_stop]
      ∧ ∀ o, o ∈ calls (trace_of Sample.services_failing_stop Server_stop []) →
             method o ∉ after.
Proof.
  assert (EvCall plugins_stop (rejected Sample.StopError)
            ∈ trace_of Sample.services_failing_stop Server_stop []) as Hin
    by (simpl; in_list).
  destruct (Server_stop_aborts Sample.services_failing_stop [] _ _ Hin)
    as (Hrej & Hrest).
  split_and!; [exact Hin | exact Hrej | exact Hrest].
Defined.

Lemma setup_pluginDependencies_witness :
  context_setup (withLegacyDependencies Sample.discovered)
    ∈ calls (trace_of Sample.services Server_setup [])
  ∧ entries (withLegacyDependencies Sample.discovered)
    = [("data", []); ("security", ["data"]); ("legacy", ["data"; "security"])]
  ∧ JSMap_get "security" (withLegacyDependencies Sample.discovered) = Some ["data"].
Proof.
  assert (Sample.services plugins_discover ([] ++ [EvDebug "setting up server"])
          = Resolved Sample.discovered) as Hdisc by reflexivity.
  assert (legacyId ∉ JSMap_keys Sample.discovered) as Hfresh.
  { intros Hin. unfold JSMap_keys in Hin. simpl in Hin. inv_elem Hin. }
  destruct (setup_pluginDependencies Sample.services [] Sample.discovered Hdisc)
    as (_ & Hcall & _ & Hkeep & Hentries).
  split_and!.
  - apply (Hcall tt). simpl. in_list.
  - rewrite (proj1 (Hentries Hfresh)). reflexivity.
  - etrans; [apply (Hkeep "security") | reflexivity]. discriminate.
Defined.

Lemma defaultRoute_version_witness :
  (∃ router,
     router_get router {| path := "/"; validate := false |} defaultRouteHandler
       ∈ calls (trace_of Sample.services Server_setup []))
  ∧ (∀ router route handler,
       router_get router route handler
         ∈ calls (trace_of Sample.services Server_setup []) →
       route = {| path := "/"; validate := false |} ∧ handler = defaultRouteHandler)
  ∧ defaultRouteHandler (P := Sample.platform) tt 3 Sample.responseFactory
    = Resolved Sample.versionResponse.
Proof.
  pose proof (defaultRoute_version Sample.services []) as (Honly & Hreg & Hbody & _).
  split_and!.
  - exact (Hreg Sample.coreSetup eq_refl).
  - intros router route handler Hin.
    destruct (Honly router route handler Hin) as (? & ? & _). by split.
  - destruct (Hbody tt 3 Sample.responseFactory) as (options & Heq & _ & _).
    reflexivity.
Defined.

Lemma coreContext_scoped_witness :
  coreContextProvider Sample.coreSetup tt 7 = Resolved (Sample.coreContext 7)
  ∧ (∃ admin,
       take1_toPromise (adminClient_stream (setup_elasticsearch Sample.coreSetup))
         = Some admin
       ∧ asScoped admin 7 = Resolved ("admin", 7))
  ∧ (∀ core7 core8,
       coreContextProvider Sample.coreSetup tt 7 = Resolved core7 →
       coreContextProvider Sample.coreSetup tt 8 = Resolved core8 →
       adminClient (elasticsearch core7) ≠ adminClient (elasticsearch core8)).
Proof.
  pose proof (coreContext_scoped Sample.coreSetup) as (_ & _ & Hshape & Hdistinct).
  assert (scoped_per_request (P := Sample.platform)) as Hscoped.
  { split_and!; simpl; intros; intros ?; simplify_eq. }
  split_and!.
  - apply Hshape. exists "admin", "data". by simpl.
  - destruct (proj1 (Hshape tt 7 _) eq_refl) as (admin & data & Ha & _ & _ & Hsa & _).
    exists admin. split; [exact Ha | exact Hsa].
  - intros core7 core8 H7 H8.
    refine (proj1 (proj2 (Hdistinct tt tt 7 8 core7 core8 Hscoped _ H7 H8))).
    discriminate.
Defined.

Lemma Server_start_unguarded_witness :
  (∃ coreStart, outcome_of Sample.services Server_start [] = Resolved coreStart)
  ∧ (∃ o, is_start (method o) = true
          ∧ last (trace_of Sample.services_start_needs_setup Server_start [])
            = Some (EvCall o (rejected Sample.NotSetUpError))).
Proof.
  pose proof (Server_start_unguarded Sample.services []) as (_ & _ & _ & Hres).
  pose proof (Server_start_unguarded Sample.services_start_needs_setup [])
    as (_ & _ & Hrej & _).
  split.
  - apply Hres. intros o e _ Hin. unfold trace_of in Hin. simpl in Hin. inv_elem Hin.
  - exact (Hrej Sample.NotSetUpError eq_refl).
Defined.

(** C9, as stated: [start()] on a fresh instance is not refused when the
    services themselves start. *)
Lemma start_before_setup_not_refused :
  ¬ start_refused_before_setup Sample.services.
Proof. intros [e He]. discriminate He. Qed.

(** * More properties *)

(** ** Data flow and failures in the lifecycle methods *)

Section MoreLifecycle.
Context `{P : Platform}.

Lemma exec_bind {A B} (svc : Services) (p : Prog A) (f : A → Prog B) past :
  exec svc (bind p f) past =
  match exec svc p past with
  | (Resolved a, t) =>
      let '(r, t') := exec svc (f a) (past ++ t) in (r, t ++ t')
  | (Rejected e, t) => (Rejected e, t)
  end.
Proof.
  revert past. induction p as [a|msg k IH|o k IH]; intros past; simpl.
  - rewrite app_nil_r. by destruct (exec svc (f a) past).
  - rewrite IH. destruct (exec svc k (past ++ [EvDebug msg])) as [[a|e] t]; [| done].
    rewrite <- app_assoc. simpl.
    by destruct (exec svc (f a) (past ++ EvDebug msg :: t)).
  - destruct (svc o past) as [x|e]; [| done].
    rewrite IH.
    destruct (exec svc (k x) (past ++ [EvCall o resolved])) as [[a|e] t]; [| done].
    rewrite <- app_assoc. simpl.
    by destruct (exec svc (f a) (past ++ EvCall o resolved :: t)).
Qed.

Lemma run_bind_rejected {A B} (svc : Services) (p : Prog A) (f : A → Prog B) past e :
  outcome_of svc p past = Rejected e →
  outcome_of svc (bind p f) past = Rejected e
  ∧ trace_of svc (bind p f) past = trace_of svc p past.
Proof.
  unfold outcome_of, trace_of. rewrite exec_bind.
  destruct (exec svc p past) as [[a|e'] t]; simpl; [done |]. by intros [= ->].
Qed.

Lemma run_bind_resolved {A B} (svc : Services) (p : Prog A) (f : A → Prog B) past a :
  outcome_of svc p past = Resolved a →
  outcome_of svc (bind p f) past
    = outcome_of svc (f a) (past ++ trace_of svc p past)
  ∧ trace_of svc (bind p f) past
    = trace_of svc p past ++ trace_of svc (f a) (past ++ trace_of svc p past).
Proof.
  unfold outcome_of, trace_of. rewrite exec_bind.
  destruct (exec svc p past) as [[a'|e'] t]; cbn [fst snd]; [| done].
  intros [= ->]. by destruct (exec svc (f a) (past ++ t)).
Qed.

Lemma run_without_rejection {A} (svc : Services) (p : Prog A) past :
  (∀ o e, EvCall o (rejected e) ∉ trace_of svc p past) →
  ∃ a, outcome_of svc p past = Resolved a.
Proof.
  intros Hno. destruct (outcome_of svc p past) as [a|e] eqn:Hout; [by exists a |].
  destruct (exec_rejected_by_call svc p past e Hout) as [o Ho].
  exfalso. apply (Hno o e). apply list_elem_of_lookup.
  rewrite last_lookup in Ho. eauto.
Qed.

Lemma calls_app (t t' : list Event) : calls (t ++ t') = calls t ++ calls t'.
Proof.
  induction t as [|[msg|o s] t IH]; simpl; [done | done | by rewrite IH].
Qed.

Lemma setup_resolved_calls (svc : Services) past coreSetup :
  outcome_of svc Server_setup past = Resolved coreSetup →
  method <$> calls (trace_of svc Server_setup past) = setup_sequence.
Proof. unfold trace_of, outcome_of, Server_setup. all_runs; done. Qed.

Lemma start_resolved_calls (svc : Services) past coreStart :
  outcome_of svc Server_start past = Resolved coreStart →
  method <$> calls (trace_of svc Server_start past) = start_sequence.
Proof. unfold trace_of, outcome_of, Server_start. all_runs; done. Qed.

Lemma stop_resolved_calls (svc : Services) past u :
  outcome_of svc Server_stop past = Resolved u →
  method <$> calls (trace_of svc Server_stop past) = stop_sequence.
Proof. unfold trace_of, outcome_of, Server_stop. all_runs; done. Qed.

(** X1. A run of [setup()] that resolves with [coreSetup] made exactly
    these calls: the http contract of [coreSetup] went to the router
    factory and to the setups of capabilities, elasticsearch and ui
    settings, saved objects got the elasticsearch contract and the legacy
    plugins found by discovery, plugins got [coreSetup] itself, legacy got
    it with the plugins contract added, and the context provider was made
    from it. *)
Theorem Server_setup_data_flow (svc : Services) (past : list Event)
    (coreSetup : InternalCoreSetup) :
  outcome_of svc Server_setup past = Resolved coreSetup →
  ∃ deps legacyPlugins router pluginsSetup,
    svc plugins_discover (past ++ [EvDebug "setting up server"]) = Resolved deps
    ∧ trace_of svc Server_setup past =
      [ EvDebug "setting up server";
        EvCall plugins_discover resolved;
        EvCall legacy_discoverPlugins resolved;
        EvCall (ensureValidConfiguration legacyPlugins) resolved;
        EvCall (context_setup (withLegacyDependencies deps)) resolved;
        EvCall (http_setup (setup_context coreSetup)) resolved;
        EvCall (http_createRouter (setup_http coreSetup) "/core") resolved;
        EvCall (router_get router {| path := "/"; validate := false |}
                  defaultRouteHandler) resolved;
        EvCall (capabilities_setup (setup_http coreSetup)) resolved;
        EvCall (elasticsearch_setup (setup_http coreSetup)) resolved;
        EvCall (uiSettings_setup (setup_http coreSetup)) resolved;
        EvCall (savedObjects_setup (setup_elasticsearch coreSetup) legacyPlugins)
               resolved;
        EvCall (plugins_setup coreSetup) resolved;
        EvCall (legacy_setup
                  {| legacy_setup_core := coreSetup;
                     legacy_setup_plugins := pluginsSetup |}
                  (mapToObject (setup_contracts pluginsSetup))) resolved;
        EvCall (http_registerRouteHandlerContext (setup_http coreSetup) coreId
                  "core" (coreContextProvider coreSetup)) resolved ].
Proof.
  unfold trace_of, outcome_of, Server_setup.
  all_runs; intros Hres; simplify_eq.
  do 4 eexists. split; reflexivity.
Qed.


(** X3. Each method stays in its phase: [setup()] never calls a [start]
    or a [stop] (in particular not [http.start]), [start()] calls nothing
    but [start] methods and [stop()] nothing but [stop] methods. *)
Theorem Server_methods_stay_in_phase (svc : Services) (past : list Event) :
  (∀ o, o ∈ calls (trace_of svc Server_setup past) →
        is_start (method o) = false ∧ is_stop (method o) = false)
  ∧ (∀ o, o ∈ calls (trace_of svc Server_start past) → is_start (method o) = true)
  ∧ (∀ o, o ∈ calls (trace_of svc Server_stop past) → is_stop (method o) = true).
Proof.
  split_and!; intros o.
  - unfold trace_of, Server_setup. all_runs; intros Ho; inv_elem Ho; by subst.
  - unfold trace_of, Server_start. all_runs; intros Ho; inv_elem Ho; by subst.
  - unfold trace_of, Server_stop. all_runs; intros Ho; inv_elem Ho; by subst.
Qed.

(** X4. [stop()] is not idempotent: called twice, with no [stop] of a
    service rejecting, it stops the five services a second time, in the
    same order. The second round is not begun when the first rejected. *)
Theorem stop_twice_repeats (svc : Services) (past : list Event) :
  ((∀ o e, EvCall o (rejected e) ∉ trace_of svc stop_twice past) →
     outcome_of svc stop_twice past = Resolved tt
     ∧ calls (trace_of svc stop_twice past)
       = [ legacy_stop; plugins_stop; savedObjects_stop; elasticsearch_stop;
           http_stop;
           legacy_stop; plugins_stop; savedObjects_stop; elasticsearch_stop;
           http_stop ])
  ∧ (∀ e, outcome_of svc Server_stop past = Rejected e →
     outcome_of svc stop_twice past = Rejected e
     ∧ trace_of svc stop_twice past = trace_of svc Server_stop past).
Proof.
  split.
  - unfold trace_of, outcome_of, stop_twice, Server_stop.
    all_runs; intros Hno; try done.
    all: exfalso; eapply Hno; in_list.
  - intros e Hrej. by apply run_bind_rejected.
Qed.

(** X5. [setup()], [start()], [stop()] in a row: when [setup()] rejects
    nothing is started or stopped; when [start()] rejects nothing is
    stopped; otherwise the run is the three runs one after the other, each
    seeing what the ones before it did. When no call rejects, the calls are
    those of the three sequences in order. *)
Theorem setup_start_stop_composes (svc : Services) (past : list Event) :
  let t1 := trace_of svc Server_setup past in
  let t2 := trace_of svc Server_start (past ++ t1) in
  let t3 := trace_of svc Server_stop (past ++ t1 ++ t2) in
  (∀ e, outcome_of svc Server_setup past = Rejected e →
     outcome_of svc setup_start_stop past = Rejected e
     ∧ trace_of svc setup_start_stop past = t1)
  ∧ (∀ coreSetup e,
     outcome_of svc Server_setup past = Resolved coreSetup →
     outcome_of svc Server_start (past ++ t1) = Rejected e →
     outcome_of svc setup_start_stop past = Rejected e
     ∧ trace_of svc setup_start_stop past = t1 ++ t2)
  ∧ (∀ coreSetup coreStart,
     outcome_of svc Server_setup past = Resolved coreSetup →
     outcome_of svc Server_start (past ++ t1) = Resolved coreStart →
     outcome_of svc setup_start_stop past
       = outcome_of svc Server_stop (past ++ t1 ++ t2)
     ∧ trace_of svc setup_start_stop past = t1 ++ t2 ++ t3)
  ∧ ((∀ o e, EvCall o (rejected e) ∉ trace_of svc setup_start_stop past) →
     outcome_of svc setup_start_stop past = Resolved tt
     ∧ method <$> calls (trace_of svc setup_start_stop past)
       = setup_sequence ++ start_sequence ++ stop_sequence).
Proof.
  intros t1 t2 t3. subst t1 t2 t3. unfold setup_start_stop. split_and!.
  - intros e Hrej. by apply run_bind_rejected.
  - intros coreSetup e Hsetup Hstart.
    destruct (run_bind_resolved svc Server_setup
                (fun _ => bind Server_start (fun _ => Server_stop)) past _ Hsetup)
      as [-> ->].
    destruct (run_bind_rejected svc Server_start (fun _ => Server_stop) _ _ Hstart)
      as [-> ->].
    done.
  - intros coreSetup coreStart Hsetup Hstart.
    destruct (run_bind_resolved svc Server_setup
                (fun _ => bind Server_start (fun _ => Server_stop)) past _ Hsetup)
      as [-> ->].
    destruct (run_bind_resolved svc Server_start (fun _ => Server_stop) _ _ Hstart)
      as [-> ->].
    by rewrite <- app_assoc.
  - intros Hno.
    destruct (outcome_of svc Server_setup past) as [cs|e] eqn:Hsetup.
    2: { destruct (run_bind_rejected svc Server_setup
                     (fun _ => bind Server_start (fun _ => Server_stop)) past e Hsetup)
           as [_ Ht].
         rewrite Ht in Hno.
         destruct (run_without_rejection svc Server_setup past Hno). congruence. }
    destruct (run_bind_resolved svc Server_setup
                (fun _ => bind Server_start (fun _ => Server_stop)) past _ Hsetup)
      as [Ho Ht].
    rewrite Ho, Ht. rewrite Ht in Hno. clear Ho Ht.
    set (t1 := trace_of svc Server_setup past) in *.
    destruct (outcome_of svc Server_start (past ++ t1)) as [st|e] eqn:Hstart.
    2: { destruct (run_bind_rejected svc Server_start (fun _ => Server_stop)
                     (past ++ t1) e Hstart) as [_ Ht].
         rewrite Ht in Hno.
         destruct (run_without_rejection svc Server_start (past ++ t1)).
         - intros o e' Hin. apply (Hno o e'). apply elem_of_app. by right.
         - congruence. }
    destruct (run_bind_resolved svc Server_start (fun _ => Server_stop)
                (past ++ t1) _ Hstart) as [Ho Ht].
    rewrite Ho, Ht. rewrite Ht in Hno. clear Ho Ht.
    set (t2 := trace_of svc Server_start (past ++ t1)) in *.
    destruct (run_without_rejection svc Server_stop ((past ++ t1) ++ t2))
      as [[] Hstop].
    { intros o e' Hin. apply (Hno o e').
      apply elem_of_app. right. apply elem_of_app. by right. }
    split; [exact Hstop |].
    rewrite !calls_app, !fmap_app.
    subst t1 t2.
    rewrite (setup_resolved_calls _ _ _ Hsetup).
    rewrite (start_resolved_calls _ _ _ Hstart).
    by rewrite (stop_resolved_calls _ _ _ Hstop).
Qed.

End MoreLifecycle.

(** ** The core context provider when things go wrong *)

Section MoreProvider.
Context `{P : Platform}.

(** X6. The provider rejects with the error of [getScopedClient] when
    that call throws, whatever the streams hold. When the admin stream, or
    the data stream after a scoped admin client was made, completes
    without a value, the provider rejects with the [TypeError] of reading
    [asScoped] of [undefined]. With an empty stream it never resolves. *)
Theorem coreContextProvider_rejections
    (coreSetup : InternalCoreSetup) (context : PartialHandlerContext)
    (req : KibanaRequest) :
  let es := setup_elasticsearch coreSetup in
  (∀ e, getScopedClient (setup_savedObjects coreSetup) req = Rejected e →
     coreContextProvider coreSetup context req = Rejected e)
  ∧ (∀ so, getScopedClient (setup_savedObjects coreSetup) req = Resolved so →
     adminClient_stream es = [] →
     coreContextProvider coreSetup context req
     = Rejected (TypeError_undefined "asScoped"))
  ∧ (∀ so admin rest scopedAdmin,
     getScopedClient (setup_savedObjects coreSetup) req = Resolved so →
     adminClient_stream es = admin :: rest →
     asScoped admin req = Resolved scopedAdmin →
     dataClient_stream es = [] →
     coreContextProvider coreSetup context req
     = Rejected (TypeError_undefined "asScoped"))
  ∧ (adminClient_stream es = [] ∨ dataClient_stream es = [] →
     ∃ e, coreContextProvider coreSetup context req = Rejected e).
Proof.
  intros es. subst es. unfold coreContextProvider. split_and!.
  - by intros e ->.
  - by intros so -> ->.
  - intros so admin rest sa -> -> Hsa ->. simpl. by rewrite Hsa.
  - intros Hempty.
    destruct (getScopedClient _ req) as [so|e]; simpl; [| by eexists].
    destruct (adminClient_stream _) as [|admin rest]; simpl; [by eexists |].
    destruct (asScoped admin req) as [sa|e]; simpl; [| by eexists].
    destruct Hempty as [?| ->]; [done |]. simpl. by eexists.
Qed.

(** X7. The keys of the map handed to [context.setup] are the discovered
    keys, in their order, followed by the legacy identifier unless it is
    already one of them. In that case the map keeps its size, and the
    entry of that plugin is replaced by the list of all discovered keys,
    itself included. No discovered key is ever lost, and the legacy entry
    never lists a plugin twice. *)
Theorem withLegacyDependencies_keys
    (deps : JSMap PluginOpaqueId (list PluginOpaqueId)) :
  JSMap_keys (withLegacyDependencies deps)
  = (if decide (legacyId ∈ JSMap_keys deps)
     then JSMap_keys deps else JSMap_keys deps ++ [legacyId])
  ∧ (legacyId ∈ JSMap_keys deps →
     JSMap_size (withLegacyDependencies deps) = JSMap_size deps
     ∧ ∃ own, JSMap_get legacyId (withLegacyDependencies deps) = Some own
              ∧ legacyId ∈ own)
  ∧ (∀ k, k ∈ JSMap_keys deps → k ∈ JSMap_keys (withLegacyDependencies deps))
  ∧ (∀ own, JSMap_get legacyId (withLegacyDependencies deps) = Some own →
     NoDup own).
Proof.
  assert (JSMap_keys (withLegacyDependencies deps)
          = (if decide (legacyId ∈ JSMap_keys deps)
             then JSMap_keys deps else JSMap_keys deps ++ [legacyId])) as Hkeys.
  { unfold JSMap_keys, withLegacyDependencies, new_Map; simpl.
    unfold entries_of_iterable. rewrite fold_left_app. simpl.
    fold (entries_of_iterable (entries deps)).
    rewrite entries_of_iterable_id by apply JSMap_NoDup.
    apply entries_set_keys. }
  split_and!.
  - exact Hkeys.
  - intros Hin. split.
    + unfold JSMap_size. rewrite <- !(length_fmap fst).
      fold (JSMap_keys (withLegacyDependencies deps)). fold (JSMap_keys deps).
      rewrite Hkeys. by rewrite decide_True.
    + exists (JSMap_keys deps). split; [apply withLegacyDependencies_legacy | done].
  - intros k Hk. rewrite Hkeys. destruct (decide _); [done |].
    apply elem_of_app. by left.
  - intros own. rewrite withLegacyDependencies_legacy. intros [= <-].
    apply JSMap_NoDup.
Qed.

End MoreProvider.

(** ** [setupConfigSchemas] *)

Section MoreConfigSchemas.
Context {ConfigPath Schema : Type}.
Implicit Types (setSchema : SetSchema ConfigPath Schema)
  (pairs : list (ConfigPath * Schema)) (past : list (SchemaEvent ConfigPath Schema)).

Lemma resolved_events_calls pairs :
  ((λ p, (p, resolved)) <$> pairs : list (SchemaEvent ConfigPath Schema)).*1 = pairs.
Proof. induction pairs as [|p rest IH]; csimpl; [done | by rewrite IH]. Qed.

Lemma for_of_setSchema_resolved setSchema pairs past u :
  (for_of_setSchema setSchema pairs past).1 = Resolved u →
  (for_of_setSchema setSchema pairs past).2 = (λ p, (p, resolved)) <$> pairs.
Proof.
  revert past. induction pairs as [|[path schema] rest IH]; intros past; simpl.
  - done.
  - destruct (setSchema path schema past) as [[]|e]; [| done].
    specialize (IH (past ++ [((path, schema), resolved)])).
    destruct (for_of_setSchema setSchema rest _) as [r t]; simpl in *.
    intros Hr. by rewrite (IH Hr).
Qed.

Lemma for_of_setSchema_rejected setSchema pairs past e :
  (for_of_setSchema setSchema pairs past).1 = Rejected e →
  ∃ before p after,
    pairs = before ++ p :: after
    ∧ (for_of_setSchema setSchema pairs past).2
      = ((λ p, (p, resolved)) <$> before) ++ [(p, rejected e)].
Proof.
  revert past. induction pairs as [|[path schema] rest IH]; intros past; simpl.
  - done.
  - destruct (setSchema path schema past) as [[]|e'].
    + specialize (IH (past ++ [((path, schema), resolved)])).
      destruct (for_of_setSchema setSchema rest _) as [r t]; simpl in *.
      intros Hr. destruct (IH Hr) as (before & p & after & -> & ->).
      by exists ((path, schema) :: before), p, after.
    + simpl. intros [= ->]. by exists [], (path, schema), rest.
Qed.

(** X8. [setupConfigSchemas()] registers the schemas of elasticsearch,
    logging, http, plugins, dev, kibana, saved objects and ui settings, in
    that order, each under its own path. When [setSchema] rejects for one
    of them, the method rejects with that error, the schemas before it
    are registered and none after it is. *)
Theorem Server_setupConfigSchemas_order
    (c : CoreConfigs ConfigPath Schema) setSchema past :
  let run := Server_setupConfigSchemas c setSchema past in
  (schemas c).*1
  = [ config_path (elasticsearchConfig c); config_path (loggingConfig c);
      config_path (httpConfig c); config_path (pluginsConfig c);
      config_path (devConfig c); config_path (kibanaConfig c);
      config_path (savedObjectsConfig c); config_path (uiSettingsConfig c) ]
  ∧ (run.2.*1 `prefix_of` schemas c)
  ∧ (run.1 = Resolved tt → run.2 = (λ p, (p, resolved)) <$> schemas c)
  ∧ (∀ e, run.1 = Rejected e →
     ∃ before p after,
       schemas c = before ++ p :: after
       ∧ run.2 = ((λ p, (p, resolved)) <$> before) ++ [(p, rejected e)])
  ∧ ((∀ p e, (p, rejected e) ∉ run.2) → run.1 = Resolved tt).
Proof.
  intros run. subst run. unfold Server_setupConfigSchemas.
  assert (∀ e, (for_of_setSchema setSchema (schemas c) past).1 = Rejected e →
     ∃ before p after,
       schemas c = before ++ p :: after
       ∧ (for_of_setSchema setSchema (schemas c) past).2
         = ((λ p, (p, resolved)) <$> before) ++ [(p, rejected e)]) as Hrej
    by (intros e; apply for_of_setSchema_rejected).
  split_and!.
  - done.
  - destruct (for_of_setSchema setSchema (schemas c) past).1 as [[]|e] eqn:Hr.
    + rewrite (for_of_setSchema_resolved _ _ _ _ Hr).
      by rewrite resolved_events_calls.
    + destruct (Hrej e eq_refl) as (before & p & after & -> & ->).
      rewrite fmap_app, resolved_events_calls. simpl.
      exists after. by rewrite <- app_assoc.
  - apply for_of_setSchema_resolved.
  - exact Hrej.
  - intros Hno.
    destruct (for_of_setSchema setSchema (schemas c) past).1 as [[]|e] eqn:Hr; [done |].
    destruct (Hrej e eq_refl) as (before & p & after & _ & Ht).
    exfalso. apply (Hno p e). rewrite Ht. apply elem_of_app. right. by left.
Qed.

End MoreConfigSchemas.

(** ** The link of the most recent error *)

Lemma linkParams_lookup (p : Uptime.UrlParams) k :
  Uptime.linkParams p !! k =
  if decide (k = "selectedPingStatus") then Some (Uptime.PStr "down")
  else if decide (k = "absoluteDateRangeEnd") then None
  else if decide (k = "absoluteDateRangeStart") then None
  else p !! k.
Proof.
  unfold Uptime.linkParams.
  destruct (decide (k = "selectedPingStatus")) as [->|H1].
  { by rewrite lookup_insert_eq. }
  rewrite lookup_insert_ne by done.
  destruct (decide (k = "absoluteDateRangeEnd")) as [->|H2].
  { by rewrite lookup_delete_eq. }
  rewrite lookup_delete_ne by done.
  destruct (decide (k = "absoluteDateRangeStart")) as [->|H3].
  { by rewrite lookup_delete_eq. }
  by rewrite lookup_delete_ne.
Qed.

(** X9. The parameters of the link always select the pings that are
    down, whatever status was selected before, never carry the absolute
    date range, and keep every other url parameter as it is; building
    them from their own result changes nothing. *)
Theorem linkParams_spec (urlParams : Uptime.UrlParams) :
  Uptime.linkParams urlParams !! "selectedPingStatus" = Some (Uptime.PStr "down")
  ∧ Uptime.linkParams urlParams !! "absoluteDateRangeStart" = None
  ∧ Uptime.linkParams urlParams !! "absoluteDateRangeEnd" = None
  ∧ (∀ k, k ≠ "selectedPingStatus" → k ≠ "absoluteDateRangeStart" →
          k ≠ "absoluteDateRangeEnd" →
          Uptime.linkParams urlParams !! k = urlParams !! k)
  ∧ Uptime.linkParams (Uptime.linkParams urlParams) = Uptime.linkParams urlParams.
Proof.
  split_and!.
  - by rewrite linkParams_lookup.
  - by rewrite linkParams_lookup.
  - by rewrite linkParams_lookup.
  - intros k H1 H2 H3. rewrite linkParams_lookup. by rewrite !decide_False.
  - apply map_eq. intros k. rewrite !linkParams_lookup. by repeat case_decide.
Qed.


(** ** The declarations of the expression functions *)

Lemma declared_no_type f :
  f ∈ XYDecl.functions → XYDecl.args f !! "type" = None.
Proof. intros Hf. unfold XYDecl.functions in Hf. inv_elem Hf; by subst. Qed.

(** X11. Each of the three expression functions is registered under the
    name of the type it produces, and tags its result with that type
    whenever the arguments it gets are among those it declares: the result
    is then the arguments with [type] set to the declared type. *)
Theorem declared_args_give_declared_type
    (f : XYDecl.ExpressionFunction) (ctx : Value) (a : Obj) :
  f ∈ XYDecl.functions →
  dom a ⊆ dom (XYDecl.args f) →
  XYDecl.name f = XYDecl.type f
  ∧ XYDecl.fn f ctx a = <[ "type" := VStr (XYDecl.type f) ]> a
  ∧ XYDecl.fn f ctx a !! "type" = Some (VStr (XYDecl.type f)).
Proof.
  intros Hf Hdom.
  pose proof (declared_no_type f Hf) as Hdecl.
  unfold XYDecl.functions in Hf.
  assert (a !! "type" = None) as Hnone.
  { apply not_elem_of_dom. intros Hin. apply Hdom in Hin.
    apply elem_of_dom in Hin as [x Hx]. by rewrite Hdecl in Hx. }
  assert (XYDecl.fn f ctx a = <[ "type" := VStr (XYDecl.type f) ]> a) as Hfn.
  { inv_elem Hf; subst; simpl; by apply obj_spread_singleton_fresh. }
  split_and!; [inv_elem Hf; by subst | exact Hfn |].
  rewrite Hfn. apply lookup_insert_eq.
Qed.

(** X12. The declared arguments match the argument types: an object of
    type [LegendConfig], [XConfig] or [LayerArgs] has only members that
    the function declares as arguments, and the declarations of [xConfig]
    and [layerConfig] contain those of [axisConfig] unchanged. *)
Theorem declared_args_cover_types :
  (∀ l, dom (XY.LegendConfig_obj l) = dom (XYDecl.args XYDecl.legendConfig))
  ∧ (∀ x, dom (XY.XConfig_obj x) ⊆ dom (XYDecl.args XYDecl.xConfig))
  ∧ (∀ a, dom (XY.LayerArgs_obj a) ⊆ dom (XYDecl.args XYDecl.layerConfig))
  ∧ (∀ k d, XYDecl.axisConfig !! k = Some d →
       XYDecl.args XYDecl.xConfig !! k = Some d
       ∧ XYDecl.args XYDecl.layerConfig !! k = Some d).
Proof.
  assert (∀ a, dom (XY.AxisConfig_obj a) ⊆ dom XYDecl.axisConfig) as Haxis.
  { intros [t [h|]]; unfold XY.AxisConfig_obj, XYDecl.axisConfig; simpl;
      rewrite ?dom_insert_L, ?dom_singleton_L, ?dom_empty_L; (set_unfold; intuition (subst; auto)). }
  split_and!.
  - intros l. unfold XY.LegendConfig_obj. simpl.
    rewrite !dom_insert_L, dom_singleton_L, dom_empty_L. (set_unfold; intuition (subst; auto)).
  - intros x. unfold XY.XConfig_obj. simpl. rewrite !dom_insert_L.
    specialize (Haxis (XY.x_axis x)). (set_unfold; intuition (subst; auto)).
  - intros a. unfold XY.LayerArgs_obj, XY.LayerConfig_obj. simpl.
    specialize (Haxis (XY.layer_axis (XY.layer_config a))).
    destruct (XY.columnToLabel a); simpl; rewrite !dom_insert_L; (set_unfold; intuition (subst; auto)).
  - intros k d Hk.
    assert (k = "title" ∨ k = "hide") as Hcases.
    { apply elem_of_dom_2 in Hk. unfold XYDecl.axisConfig in Hk.
      rewrite !dom_insert_L, dom_empty_L in Hk. (set_unfold; intuition (subst; auto)). }
    simpl. destruct Hcases as [-> | ->]; rewrite !lookup_insert_ne by done; done.
Qed.

(** X13. The options declared for [seriesType] are exactly the values of
    the type [SeriesType], each once. *)
Theorem seriesType_options :
  XYDecl.declared_options XYDecl.layerConfig "seriesType"
  = (λ s, XYDecl.OptStr (XY.SeriesType_value s))
      <$> [XY.bar; XY.line; XY.area; XY.bar_stacked; XY.area_stacked]
  ∧ (∀ s, XYDecl.OptStr (XY.SeriesType_value s)
            ∈ XYDecl.declared_options XYDecl.layerConfig "seriesType")
  ∧ (∀ o, o ∈ XYDecl.declared_options XYDecl.layerConfig "seriesType" →
          ∃ s, o = XYDecl.OptStr (XY.SeriesType_value s))
  ∧ (∀ s s', XY.SeriesType_value s = XY.SeriesType_value s' → s = s')
  ∧ NoDup (XYDecl.declared_options XYDecl.layerConfig "seriesType").
Proof.
  assert (XYDecl.declared_options XYDecl.layerConfig "seriesType"
          = (λ s, XYDecl.OptStr (XY.SeriesType_value s))
              <$> [XY.bar; XY.line; XY.area; XY.bar_stacked; XY.area_stacked])
    as Hopts by reflexivity.
  split_and!.
  - exact Hopts.
  - intros s. rewrite Hopts. destruct s; simpl; in_list.
  - intros o. rewrite Hopts. simpl. intros Ho. inv_elem Ho; subst.
    + by exists XY.bar.
    + by exists XY.line.
    + by exists XY.area.
    + by exists XY.bar_stacked.
    + by exists XY.area_stacked.
  - intros [] []; simpl; intros H; done.
  - rewrite Hopts. simpl. repeat (apply NoDup_cons; split; [intros Hin; inv_elem Hin; done |]).
    apply NoDup_nil_2.
Qed.

(** ** The further properties on the sample installations *)

Lemma Server_setup_data_flow_witness :
  outcome_of Sample.services Server_setup [] = Resolved Sample.coreSetup
  ∧ EvCall (plugins_setup Sample.coreSetup) resolved
      ∈ trace_of Sample.services Server_setup [].
Proof.
  assert (outcome_of Sample.services Server_setup [] = Resolved Sample.coreSetup)
    as Hres by reflexivity.
  destruct (Server_setup_data_flow Sample.services [] Sample.coreSetup Hres)
    as (deps & lp & router & pl & _ & Ht).
  split; [exact Hres |]. rewrite Ht. in_list.
Defined.


Lemma Server_methods_stay_in_phase_witness :
  http_start ∈ calls (trace_of Sample.services Server_start [])
  ∧ is_start (method (P := Sample.platform) http_start) = true
  ∧ ∀ o, o ∈ calls (trace_of Sample.services Server_setup []) →
         is_start (method o) = false ∧ is_stop (method o) = false.
Proof.
  pose proof (Server_methods_stay_in_phase Sample.services []) as (Hsetup & Hstart & _).
  assert (http_start ∈ calls (trace_of Sample.services Server_start [])) as Hin
    by (simpl; in_list).
  split_and!; [exact Hin | exact (Hstart _ Hin) | exact Hsetup].
Defined.

Lemma stop_twice_repeats_witness :
  outcome_of Sample.services stop_twice [] = Resolved tt
  ∧ length (calls (trace_of Sample.services stop_twice [])) = 10
  ∧ trace_of Sample.services_failing_stop stop_twice []
    = trace_of Sample.services_failing_stop Server_stop [].
Proof.
  pose proof (stop_twice_repeats Sample.services []) as (Hall & _).
  pose proof (stop_twice_repeats Sample.services_failing_stop []) as (_ & Hrej).
  destruct Hall as [Hout Hcalls].
  { intros o e Hin. unfold trace_of in Hin. simpl in Hin. inv_elem Hin. }
  split_and!; [exact Hout | by rewrite Hcalls |].
  exact (proj2 (Hrej Sample.StopError eq_refl)).
Defined.

Lemma setup_start_stop_composes_witness :
  outcome_of Sample.services setup_start_stop [] = Resolved tt
  ∧ method <$> calls (trace_of Sample.services setup_start_stop [])
    = setup_sequence ++ start_sequence ++ stop_sequence
  ∧ trace_of Sample.services_invalid_config setup_start_stop []
    = trace_of Sample.services_invalid_config Server_setup [].
Proof.
  pose proof (setup_start_stop_composes Sample.services []) as (_ & _ & _ & Hall).
  pose proof (setup_start_stop_composes Sample.services_invalid_config [])
    as (Hrej & _).
  destruct Hall as [Hout Hcalls].
  { intros o e Hin. unfold trace_of in Hin. simpl in Hin. inv_elem Hin. }
  split_and!; [exact Hout | exact Hcalls |].
  exact (proj2 (Hrej _ eq_refl)).
Defined.

Lemma coreContextProvider_rejections_witness :
  coreContextProvider Outage.coreSetup tt 7
  = Rejected (TypeError_undefined "asScoped").
Proof.
  pose proof (coreContextProvider_rejections (P := Outage.platform_no_admin)
                Outage.coreSetup tt 7) as (_ & Hadmin & _).
  exact (Hadmin 7 eq_refl eq_refl).
Defined.

Lemma withLegacyDependencies_keys_witness :
  legacyId ∈ JSMap_keys Outage.discovered_with_legacy
  ∧ JSMap_keys (withLegacyDependencies Outage.discovered_with_legacy)
    = ["data"; "legacy"; "security"]
  ∧ JSMap_size (withLegacyDependencies Outage.discovered_with_legacy) = 3.
Proof.
  assert (legacyId ∈ JSMap_keys Outage.discovered_with_legacy) as Hin.
  { unfold JSMap_keys. simpl. in_list. }
  destruct (withLegacyDependencies_keys Outage.discovered_with_legacy)
    as (Hkeys & Hsame & _).
  split_and!; [exact Hin | |].
  - rewrite Hkeys. reflexivity.
  - rewrite (proj1 (Hsame Hin)). reflexivity.
Defined.

Lemma Server_setupConfigSchemas_order_witness :
  (Server_setupConfigSchemas Outage.configs Outage.setSchema_ok []).2.*1.*1
  = ["elasticsearch"; "logging"; "server"; "plugins"; "dev"; "kibana";
     "savedObjects"; "uiSettings"]
  ∧ ∃ before p after,
      schemas Outage.configs = before ++ p :: after
      ∧ (Server_setupConfigSchemas Outage.configs
           Outage.setSchema_refusing_plugins []).2
        = ((λ p, (p, resolved)) <$> before) ++ [(p, rejected Outage.SchemaError)].
Proof.
  pose proof (Server_setupConfigSchemas_order Outage.configs Outage.setSchema_ok [])
    as (_ & _ & Hall & _).
  pose proof (Server_setupConfigSchemas_order Outage.configs
                Outage.setSchema_refusing_plugins []) as (_ & _ & _ & Hrej & _).
  split.
  - rewrite (Hall eq_refl). reflexivity.
  - exact (Hrej Outage.SchemaError eq_refl).
Defined.

Lemma linkParams_spec_witness :
  Uptime.linkParams Outage.urlParams !! "search" = Some (Uptime.PStr "host")
  ∧ Uptime.linkParams Outage.urlParams !! "selectedPingStatus"
    = Some (Uptime.PStr "down").
Proof.
  pose proof (linkParams_spec Outage.urlParams) as (Hdown & _ & _ & Hkeep & _).
  split; [| exact Hdown].
  rewrite (Hkeep "search"); [reflexivity | discriminate | discriminate | discriminate].
Defined.


Lemma declared_args_give_declared_type_witness :
  XYDecl.fn XYDecl.legendConfig VNull (XY.LegendConfig_obj XY.sample_legend) !! "type"
  = Some (VStr "lens_xy_legendConfig").
Proof.
  refine (proj2 (proj2 (declared_args_give_declared_type XYDecl.legendConfig VNull
                          (XY.LegendConfig_obj XY.sample_legend) _ _))).
  - unfold XYDecl.functions. in_list.
  - apply (bool_decide_unpack _). vm_compute. exact I.
Defined.

Lemma declared_args_cover_types_witness :
  XYDecl.args XYDecl.layerConfig !! "hide" = XYDecl.axisConfig !! "hide"
  ∧ is_Some (XYDecl.axisConfig !! "hide").
Proof.
  pose proof declared_args_cover_types as (_ & _ & _ & Haxis).
  assert (is_Some (XYDecl.axisConfig !! "hide")) as [d Hd] by (by eexists).
  split; [| by exists d].
  rewrite Hd. exact (proj2 (Haxis "hide" d Hd)).
Defined.

Lemma seriesType_options_witness :
  ∃ s, XYDecl.OptStr "bar_stacked" = XYDecl.OptStr (XY.SeriesType_value s).
Proof.
  pose proof seriesType_options as (_ & _ & Hall & _).
  apply Hall. unfold XYDecl.declared_options. simpl. in_list.
Defined.
